(** * Vision turn controller

    A shallow embedding of [selfdrive/controls/lib/vision_turn_controller.py]
    and the properties its specification states about it.

    Numbers.  The Python code computes on binary64 floats.  The embedding
    reads them as real numbers ([R]): comparisons, thresholds, [min]/[max]
    and the control flow are exactly those of the code, while rounding,
    infinities and NaN are left out.  Python exceptions that arithmetic can
    raise ([ZeroDivisionError] of float division, [ValueError] of
    [math.sqrt]) are kept, in a small error monad.

    State.  The controller object is a record; every method is a function
    from the record to the new record (or to a [result] when it can raise). *)

From Stdlib Require Import Reals Lra Lia List Bool PeanoNat.
From Stdlib Require String.
Import String.StringSyntax.
Delimit Scope string_scope with string.
Import ListNotations.
Open Scope R_scope.

(** ** Python values: exceptions, division, square root, min and max *)

Inductive exn : Type :=
| ZeroDivisionError
| ValueError.

Inductive result (A : Type) : Type :=
| Ok (a : A)
| Raise (e : exn).

Arguments Ok {A} a.
Arguments Raise {A} e.

Definition bind {A B : Type} (c : result A) (k : A -> result B) : result B :=
  match c with
  | Ok a => k a
  | Raise e => Raise e
  end.

Notation "x <- c ;; k" := (bind c (fun x => k))
  (at level 61, c at next level, right associativity).
Notation "' pat <- c ;; k" := (bind c (fun x => match x with pat => k end))
  (at level 61, pat pattern, c at next level, right associativity).

(** [a / b] on Python floats. *)
Definition truediv (a b : R) : result R :=
  if Req_dec_T b 0 then Raise ZeroDivisionError else Ok (a / b).

(** [math.sqrt]: a negative argument raises [ValueError]. *)
Definition math_sqrt (x : R) : result R :=
  if Rlt_dec x 0 then Raise ValueError else Ok (sqrt x).

(** The builtins [max(a, b)] and [min(a, b)]: the first argument is kept
    unless the second is strictly larger (smaller). *)
Definition py_max (a b : R) : R := if Rgt_dec b a then b else a.
Definition py_min (a b : R) : R := if Rlt_dec b a then b else a.

(** [min(l)] on a non-empty list (an empty one raises in Python; the only
    call site passes three elements). *)
Definition py_min_list (l : list R) : R :=
  match l with
  | [] => 0
  | a :: l' => fold_left py_min l' a
  end.

(** Comparisons as booleans, for masks and conjunctions. *)
Definition Rgtb (a b : R) : bool := if Rgt_dec a b then true else false.
Definition Rgeb (a b : R) : bool := if Rge_dec a b then true else false.

(** ** numpy: the few array operations the file uses *)

(** [np.arange(start, stop, step)] has [n = ceil((stop - start) / step)]
    entries [start + i * step]; [n] is given and checked against [stop] in
    [_EVAL_RANGE_is_arange] below. *)
Definition np_arange (start step : R) (n : nat) : list R :=
  map (fun i => start + INR i * step) (seq 0 n).

(** [np.amax] of a non-empty array. *)
Definition np_amax (l : list R) : R :=
  match l with
  | [] => 0
  | a :: l' => fold_left Rmax l' a
  end.

(** [np.nonzero(mask)[0]]: the indices of the true entries, in order. *)
Fixpoint np_nonzero_from (i : nat) (mask : list bool) : list nat :=
  match mask with
  | [] => []
  | b :: mask' =>
      if b then i :: np_nonzero_from (S i) mask' else np_nonzero_from (S i) mask'
  end.

Definition np_nonzero (mask : list bool) : list nat := np_nonzero_from 0 mask.

(** Elementwise [a - b] and [a / 2 + b] of arrays of the same length. *)
Fixpoint map2 {A B C : Type} (f : A -> B -> C) (l1 : list A) (l2 : list B) : list C :=
  match l1, l2 with
  | a :: l1', b :: l2' => f a b :: map2 f l1' l2'
  | _, _ => []
  end.

(** Modelled from the spec: [common.numpy_fast.interp], which is not among
    the sources at hand.  The spec describes it as a piecewise-linear
    function defined by ordered input breakpoints and corresponding output
    values, clamped at the edges (flat extrapolation outside the table).
    [interp_from x xlo flo xp fp] is the value at [x], known to lie above
    the breakpoint [xlo] whose value is [flo]. *)
Fixpoint interp_from (x xlo flo : R) (xp fp : list R) : R :=
  match xp, fp with
  | xhi :: xp', fhi :: fp' =>
      if Rgt_dec x xhi then interp_from x xhi fhi xp' fp'
      else (x - xlo) * (fhi - flo) / (xhi - xlo) + flo
  | _, _ => flo
  end.

Definition interp (x : R) (xp fp : list R) : R :=
  match xp, fp with
  | x0 :: xp', f0 :: fp' =>
      if Rgt_dec x x0 then interp_from x x0 f0 xp' fp' else f0
  | _, _ => 0
  end.

(** ** Module constants *)

Definition _MIN_V : R := 5.6.
Definition _MIN_V_SOLUTION : R := 8.33.

Definition _ENTERING_PRED_LAT_ACC_TH : R := 1.3.
Definition _ABORT_ENTERING_PRED_LAT_ACC_TH : R := 1.1.

Definition _TURNING_LAT_ACC_TH : R := 1.5.

Definition _LEAVING_LAT_ACC_TH : R := 1.3.
Definition _FINISH_LAT_ACC_TH : R := 1.1.

Definition _EVAL_STEP : R := 5.
Definition _EVAL_START : R := 20.
Definition _EVAL_LENGHT : R := 150.
Definition _EVAL_RANGE : list R := np_arange _EVAL_START _EVAL_STEP 26.

Definition _A_LAT_REG_MAX : R := 2.

Definition _ENTERING_SMOOTH_DECEL_V : list R := [-0.3; -1].
Definition _ENTERING_SMOOTH_DECEL_BP : list R := [1; 3].

Definition _MIN_TURNING_ACC_V : list R := [-0.1; -0.2; -0.4].
Definition _MIN_TURNING_ACC_BP : list R := [1; 2; 3].

Definition _MIN_LANE_PROB : R := 0.6.

(** ** Curvature and lateral acceleration *)

(** The path polynomial: [np.polyfit(_, _, 3)] and
    [np.array([0., 0., 0., 0.])] both have four entries, [poly[0]] the cubic
    coefficient and [poly[3]] the constant. *)
Record Poly : Type := mkPoly { p0 : R; p1 : R; p2 : R; p3 : R }.

Definition zero_poly : Poly := mkPoly 0 0 0 0.

(** The inner function [curvature] of [eval_curvature]. *)
Definition curvature (poly : Poly) (x : R) : R :=
  Rabs (2 * p1 poly + 6 * p0 poly * x)
  / Rpower (1 + (3 * p0 poly * x ^ 2 + 2 * p1 poly * x + p2 poly) ^ 2) 1.5.

Definition eval_curvature (poly : Poly) (x_vals : list R) : list R :=
  map (curvature poly) x_vals.

(** The inner function [lat_acc] of [eval_lat_acc]. *)
Definition lat_acc (v_ego curv : R) : R := v_ego ^ 2 * curv.

Definition eval_lat_acc (v_ego : R) (x_curv : list R) : list R :=
  map (lat_acc v_ego) x_curv.

(** The curvature formula as the specification writes it, coefficients named
    from cubic to constant. *)
Definition curvature_spec (c3 c2 c1 c0 x : R) : R :=
  Rabs (2 * c2 + 6 * c3 * x) / Rpower (1 + (3 * c3 * (x * x) + 2 * c2 * x + c1) * (3 * c3 * (x * x) + 2 * c2 * x + c1)) (3 / 2).

(** ** Messages and controller state *)

Inductive VisionTurnControllerState : Type :=
| disabled
| entering
| turning
| leaving.

Definition state_eqb (a b : VisionTurnControllerState) : bool :=
  match a, b with
  | disabled, disabled | entering, entering
  | turning, turning | leaving, leaving => true
  | _, _ => false
  end.

(** One lane line of [modelV2] (the fields the controller reads). *)
Record XYZTData : Type := mkXYZT {
  xyzt_t : list R;
  xyzt_x : list R;
  xyzt_y : list R
}.

Record ModelDataV2 : Type := mkModelData {
  laneLines : list XYZTData;
  laneLineProbs : list R;
  laneLineStds : list R
}.

Record LateralPlan : Type := mkLateralPlan {
  dPathWLinesX : list R;
  dPathWLinesY : list R
}.

Record CarState : Type := mkCarState {
  steeringAngleDeg : R;
  gasPressed : bool
}.

(** The snapshot [sm]: [sm.valid.get(k, False)] and [sm[k]] for the three
    services read. *)
Record SubMaster : Type := mkSubMaster {
  valid_modelV2 : bool;
  modelV2 : ModelDataV2;
  valid_lateralPlan : bool;
  lateralPlan : LateralPlan;
  carState : CarState
}.

Record CarParams : Type := mkCarParams {
  steerRatio : R;
  wheelbase : R
}.

(** The attributes of a [VisionTurnController] object.  [acc_limits] is the
    caller's two-element list, [fst] its entry 0 (min) and [snd] its
    entry 1 (max).  [_a_ego], [_v_turn] and [_acc_limits] are first assigned
    by [update]; nothing reads them before. *)
Record VisionTurnController : Type := mkVTC {
  _op_enabled : bool;
  _gas_pressed : bool;
  _is_enabled : bool;
  _last_params_update : R;
  _v_cruise_setpoint : R;
  _v_ego : R;
  _a_ego : R;
  _state : VisionTurnControllerState;
  _current_lat_acc : R;
  _max_v_for_current_curvature : R;
  _max_pred_lat_acc : R;
  _v_overshoot_distance : R;
  _v_overshoot : R;
  _lat_acc_overshoot_ahead : bool;
  _v_turn : R;
  _acc_limits : R * R
}.

(** Attribute assignments, one function per group of attributes a method
    writes. *)
Definition set_inputs (enabled gas : bool) (v_ego a_ego v_cruise_setpoint : R)
    (acc_limits : R * R) (self : VisionTurnController) : VisionTurnController :=
  mkVTC enabled gas (_is_enabled self) (_last_params_update self)
    v_cruise_setpoint v_ego a_ego (_state self)
    (_current_lat_acc self) (_max_v_for_current_curvature self)
    (_max_pred_lat_acc self) (_v_overshoot_distance self) (_v_overshoot self)
    (_lat_acc_overshoot_ahead self) (_v_turn self) acc_limits.

Definition set_params (is_enabled : bool) (time : R)
    (self : VisionTurnController) : VisionTurnController :=
  mkVTC (_op_enabled self) (_gas_pressed self) is_enabled time
    (_v_cruise_setpoint self) (_v_ego self) (_a_ego self) (_state self)
    (_current_lat_acc self) (_max_v_for_current_curvature self)
    (_max_pred_lat_acc self) (_v_overshoot_distance self) (_v_overshoot self)
    (_lat_acc_overshoot_ahead self) (_v_turn self) (_acc_limits self).

Definition set__state (value : VisionTurnControllerState)
    (self : VisionTurnController) : VisionTurnController :=
  mkVTC (_op_enabled self) (_gas_pressed self) (_is_enabled self)
    (_last_params_update self) (_v_cruise_setpoint self) (_v_ego self)
    (_a_ego self) value
    (_current_lat_acc self) (_max_v_for_current_curvature self)
    (_max_pred_lat_acc self) (_v_overshoot_distance self) (_v_overshoot self)
    (_lat_acc_overshoot_ahead self) (_v_turn self) (_acc_limits self).

(** The three attributes [_update_calculations] always writes. *)
Definition set_lat_acc (current_lat_acc max_v max_pred_lat_acc : R) (ahead : bool)
    (self : VisionTurnController) : VisionTurnController :=
  mkVTC (_op_enabled self) (_gas_pressed self) (_is_enabled self)
    (_last_params_update self) (_v_cruise_setpoint self) (_v_ego self)
    (_a_ego self) (_state self)
    current_lat_acc max_v max_pred_lat_acc
    (_v_overshoot_distance self) (_v_overshoot self)
    ahead (_v_turn self) (_acc_limits self).

(** The two it writes only when an overshoot is ahead. *)
Definition set_overshoot (v_overshoot v_overshoot_distance : R)
    (self : VisionTurnController) : VisionTurnController :=
  mkVTC (_op_enabled self) (_gas_pressed self) (_is_enabled self)
    (_last_params_update self) (_v_cruise_setpoint self) (_v_ego self)
    (_a_ego self) (_state self)
    (_current_lat_acc self) (_max_v_for_current_curvature self)
    (_max_pred_lat_acc self) v_overshoot_distance v_overshoot
    (_lat_acc_overshoot_ahead self) (_v_turn self) (_acc_limits self).

Definition set_solution (v_turn : R) (acc_limits : R * R)
    (self : VisionTurnController) : VisionTurnController :=
  mkVTC (_op_enabled self) (_gas_pressed self) (_is_enabled self)
    (_last_params_update self) (_v_cruise_setpoint self) (_v_ego self)
    (_a_ego self) (_state self)
    (_current_lat_acc self) (_max_v_for_current_curvature self)
    (_max_pred_lat_acc self) (_v_overshoot_distance self) (_v_overshoot self)
    (_lat_acc_overshoot_ahead self) v_turn acc_limits.

(** ** The controller's methods *)

Definition _reset (self : VisionTurnController) : VisionTurnController :=
  mkVTC (_op_enabled self) (_gas_pressed self) (_is_enabled self)
    (_last_params_update self) (_v_cruise_setpoint self) (_v_ego self)
    (_a_ego self) (_state self)
    0 0 0 200 0 false (_v_turn self) (_acc_limits self).

(** [__init__]: [param] is what [Params().get_bool("TurnVisionControl")]
    returns at construction. *)
Definition __init__ (param : bool) : VisionTurnController :=
  _reset (mkVTC false false param 0 0 0 0 disabled 0 0 0 0 0 false 0 (0, 0)).

(** The properties [state], [is_active], [acc_limits] and [v_turn]. *)
Definition state (self : VisionTurnController) : VisionTurnControllerState :=
  _state self.

Definition is_active (self : VisionTurnController) : bool :=
  negb (state_eqb (_state self) disabled).

Definition acc_limits (self : VisionTurnController) : R * R := _acc_limits self.

Definition v_turn (self : VisionTurnController) : R :=
  if negb (state_eqb (state self) disabled) then _v_turn self
  else _v_cruise_setpoint self.

(** The setter of [state]: entering [disabled] from another state resets the
    lateral-acceleration attributes. *)
Definition set_state (value : VisionTurnControllerState)
    (self : VisionTurnController) : VisionTurnController :=
  let self :=
    if negb (state_eqb value (_state self)) then
      if state_eqb value disabled then _reset self else self
    else self in
  set__state value self.

(** [_update_params]: [time] is [sec_since_boot()], [param] what the store
    would return if read now. *)
Definition _update_params (time : R) (param : bool)
    (self : VisionTurnController) : VisionTurnController :=
  if Rgt_dec time (_last_params_update self + 5.0) then set_params param time self
  else self.

Definition _state_transition (self : VisionTurnController) : VisionTurnController :=
  if negb (_op_enabled self) || negb (_is_enabled self) || _gas_pressed self then
    set_state disabled self
  else
    match state self with
    | disabled =>
        if Rle_dec (_v_ego self) _MIN_V then self
        else if Rge_dec (_max_pred_lat_acc self) _ENTERING_PRED_LAT_ACC_TH
             then set_state entering self
             else self
    | entering =>
        if Rge_dec (_current_lat_acc self) _TURNING_LAT_ACC_TH
        then set_state turning self
        else if Rlt_dec (_max_pred_lat_acc self) _ABORT_ENTERING_PRED_LAT_ACC_TH
             then set_state disabled self
             else self
    | turning =>
        if Rle_dec (_current_lat_acc self) _LEAVING_LAT_ACC_TH
        then set_state leaving self
        else self
    | leaving =>
        if Rge_dec (_current_lat_acc self) _TURNING_LAT_ACC_TH
        then set_state turning self
        else if Rlt_dec (_current_lat_acc self) _FINISH_LAT_ACC_TH
             then set_state disabled self
             else self
    end.

(** The locals [v_turn] and [acc_limits] of [_update_solution] when the chain
    of state branches is left (line 280 of the source).  [try ... except
    ValueError] catches the failure of [math.sqrt] and nothing else. *)
Definition _solve_state (self : VisionTurnController) : result (R * (R * R)) :=
  let acc_limits := _acc_limits self in
  let v_turn := _v_cruise_setpoint self in
  match state self with
  | disabled => Ok (v_turn, acc_limits)
  | entering =>
      let min_acc :=
        interp (_max_pred_lat_acc self) _ENTERING_SMOOTH_DECEL_BP _ENTERING_SMOOTH_DECEL_V in
      '(v_turn, min_acc) <-
        (if negb (_lat_acc_overshoot_ahead self) then
           match math_sqrt (_v_ego self ^ 2 + 2 * min_acc * last _EVAL_RANGE 0) with
           | Ok v => Ok (v, min_acc)
           | Raise ValueError => Ok (_MIN_V_SOLUTION, min_acc)
           | Raise e => Raise e
           end
         else
           q <- truediv (_v_overshoot self ^ 2 - _v_ego self ^ 2)
                        (2 * _v_overshoot_distance self) ;;
           Ok (_v_overshoot self, py_min q min_acc)) ;;
      Ok (v_turn, (py_min min_acc (fst acc_limits), snd acc_limits))
  | turning =>
      Ok (py_min (_v_ego self) (_max_v_for_current_curvature self),
          (interp (_current_lat_acc self) _MIN_TURNING_ACC_BP _MIN_TURNING_ACC_V,
           snd acc_limits))
  | leaving => Ok (py_min (_v_ego self) (_v_cruise_setpoint self), acc_limits)
  end.

Definition _update_solution (self : VisionTurnController) : result VisionTurnController :=
  '(v_turn, acc_limits) <- _solve_state self ;;
  Ok (set_solution (py_max v_turn _MIN_V_SOLUTION) acc_limits self).

Section Controller.

(** What the file imports from modules that are not among the sources at
    hand: two unit conversions of [selfdrive.config.Conversions], the
    cruise-speed ceiling of [drive_helpers], the model's trajectory length
    of [lane_planner], and numpy's least-squares fit of degree 3. *)
Variable DEG_TO_RAD : R.
Variable KPH_TO_MS : R.
Variable V_CRUISE_MAX : R.
Variable TRAJECTORY_SIZE : nat.
Variable np_polyfit3 : list R -> list R -> Poly.

(** The car parameters the controller is constructed with ([self._CP]). *)
Variable CP : CarParams.

(** Lines 149-179 of [_update_calculations]: the polynomial from the two
    inner lane lines, when both are probable enough.  The list accesses
    [laneLines[1]], [laneLines[2]] follow the length test; the entries 1
    and 2 of [laneLineProbs] and [laneLineStds] are read with default 0
    (the message carries one per lane line). *)
Definition lane_poly (v_ego : R) (model_data : ModelDataV2) : option Poly :=
  match laneLines model_data with
  | [ll0; ll1; ll2; _] =>
      if (length (xyzt_t ll0) =? TRAJECTORY_SIZE)%nat then
        let ll_x := xyzt_x ll1 in
        let lll_y := xyzt_y ll1 in
        let rll_y := xyzt_y ll2 in
        let l_prob := nth 1 (laneLineProbs model_data) 0 in
        let r_prob := nth 2 (laneLineProbs model_data) 0 in
        let lll_std := nth 1 (laneLineStds model_data) 0 in
        let rll_std := nth 2 (laneLineStds model_data) 0 in
        let width_pts := map2 Rminus rll_y lll_y in
        let prob_mods :=
          map (fun t_check =>
                 let width_at_t := interp (t_check * (v_ego + 7)) ll_x width_pts in
                 interp width_at_t [4.0; 5.0] [1.0; 0.0])
              [0.0; 1.5; 3.0] in
        let mod_ := py_min_list prob_mods in
        let l_prob := l_prob * mod_ in
        let r_prob := r_prob * mod_ in
        let l_std_mod := interp lll_std [0.15; 0.3] [1.0; 0.0] in
        let r_std_mod := interp rll_std [0.15; 0.3] [1.0; 0.0] in
        let l_prob := l_prob * l_std_mod in
        let r_prob := r_prob * r_std_mod in
        if Rgtb l_prob _MIN_LANE_PROB && Rgtb r_prob _MIN_LANE_PROB then
          let c_y := map2 (fun w l => w / 2 + l) width_pts lll_y in
          Some (np_polyfit3 ll_x c_y)
        else None
      else None
  | _ => None
  end.

(** Lines 144-189: the path polynomial, from the lanes, else from the
    compensated driving path, else the straight line. *)
Definition path_poly_of (v_ego : R) (sm : SubMaster) : Poly :=
  let model_data := if valid_modelV2 sm then Some (modelV2 sm) else None in
  let lat_planner_data := if valid_lateralPlan sm then Some (lateralPlan sm) else None in
  let path_poly :=
    match model_data with
    | Some md => lane_poly v_ego md
    | None => None
    end in
  let path_poly :=
    match path_poly, lat_planner_data with
    | None, Some lp =>
        match dPathWLinesX lp with
        | x0 :: _ =>
            if Rgt_dec x0 0
            then Some (np_polyfit3 (dPathWLinesX lp) (dPathWLinesY lp))
            else None
        | [] => None
        end
    | _, _ => path_poly
    end in
  match path_poly with
  | Some p => p
  | None => zero_poly
  end.

(** Lines 191-208: the lateral accelerations and the overshoot, for a
    given path polynomial. *)
Definition evaluate (path_poly : Poly) (steeringAngleDeg : R)
    (self : VisionTurnController) : result VisionTurnController :=
  q <- truediv (steeringAngleDeg * DEG_TO_RAD) (steerRatio CP * wheelbase CP) ;;
  let current_curvature := Rabs q in
  let current_lat_acc := current_curvature * _v_ego self ^ 2 in
  max_v_for_current_curvature <-
    (if Rgt_dec current_curvature 0
     then r <- truediv _A_LAT_REG_MAX current_curvature ;; math_sqrt r
     else Ok (V_CRUISE_MAX * KPH_TO_MS)) ;;
  let pred_curvatures := eval_curvature path_poly _EVAL_RANGE in
  let max_pred_curvature := np_amax pred_curvatures in
  let max_pred_lat_acc := _v_ego self ^ 2 * max_pred_curvature in
  max_curvature_for_vego <- truediv _A_LAT_REG_MAX (py_max (_v_ego self) 0.1 ^ 2) ;;
  let lat_acc_overshoot_idxs :=
    np_nonzero (map (fun c => Rgeb c max_curvature_for_vego) pred_curvatures) in
  let lat_acc_overshoot_ahead := (0 <? length lat_acc_overshoot_idxs)%nat in
  let self :=
    set_lat_acc current_lat_acc max_v_for_current_curvature max_pred_lat_acc
      lat_acc_overshoot_ahead self in
  if lat_acc_overshoot_ahead then
    r <- truediv _A_LAT_REG_MAX max_pred_curvature ;;
    s <- math_sqrt r ;;
    Ok (set_overshoot
          (py_min s (_v_cruise_setpoint self))
          (py_max (INR (hd 0%nat lat_acc_overshoot_idxs) * _EVAL_STEP + _EVAL_START)
                  _EVAL_STEP)
          self)
  else Ok self.

Definition _update_calculations (sm : SubMaster)
    (self : VisionTurnController) : result VisionTurnController :=
  evaluate (path_poly_of (_v_ego self) sm) (steeringAngleDeg (carState sm)) self.

(** [update]: [time] and [param] stand for the two reads of the outside
    world [_update_params] makes ([sec_since_boot()] and the persisted
    toggle). *)
Definition update (enabled : bool) (v_ego a_ego v_cruise_setpoint : R)
    (acc_limits : R * R) (sm : SubMaster) (time : R) (param : bool)
    (self : VisionTurnController) : result VisionTurnController :=
  let self :=
    set_inputs enabled (gasPressed (carState sm)) v_ego a_ego v_cruise_setpoint
      acc_limits self in
  let self := _update_params time param self in
  self <- _update_calculations sm self ;;
  let self := _state_transition self in
  _update_solution self.

End Controller.

(** ** An invariant, and concrete inputs for the examples *)

(** An overshoot flagged in the controller comes with a distance of at
    least one evaluation step. *)
Definition overshoot_inv (self : VisionTurnController) : Prop :=
  _lat_acc_overshoot_ahead self = true -> _EVAL_STEP <= _v_overshoot_distance self.

(** The values the imported constants have in openpilot
    ([np.pi / 180.], [1. / 3.6], 135 km/h, 33 samples), and a mid-size car. *)
Definition DEG_TO_RAD_value : R := PI / 180.
Definition KPH_TO_MS_value : R := 1 / 3.6.
Definition V_CRUISE_MAX_value : R := 135.
Definition TRAJECTORY_SIZE_value : nat := 33.
Definition CP_example : CarParams := mkCarParams 15 2.7.

(** A snapshot with neither [modelV2] nor [lateralPlan] valid: the path is
    the straight line and [np.polyfit] is not called, so any function can
    stand for it in the examples. *)
Definition sm_no_vision (steer : R) (gas : bool) : SubMaster :=
  mkSubMaster false (mkModelData [] [] []) false (mkLateralPlan [] [])
    (mkCarState steer gas).

Definition polyfit_not_called (xs ys : list R) : Poly := zero_poly.

(** A controller in each of the three active states, otherwise as
    constructed. *)
Definition in_state (value : VisionTurnControllerState) : VisionTurnController :=
  set__state value (__init__ true).

(** A controller in [entering] at 5 m/s, a lateral acceleration of 1.4
    predicted ahead, no overshoot, limits (-1, 2). *)
Definition entering_slow : VisionTurnController :=
  mkVTC true false true 0 30 5 0 entering 0 0 1.4 200 0 false 0 (-1, 2).

(** A gentle parabola, [y = 0.01 x^2]. *)
Definition parabola : Poly := mkPoly 0 0.01 0 0.

(** ** The rest of the module: descriptions, the transition graph, runs *)

(** [_description_for_state], the name a state is logged under. *)
Definition _description_for_state
    (turn_controller_state : VisionTurnControllerState) : String.string :=
  match turn_controller_state with
  | disabled => "DISABLED"%string
  | entering => "ENTERING"%string
  | turning => "TURNING"%string
  | leaving => "LEAVING"%string
  end.


(** The arguments of one call of [update], with the two reads of the outside
    world it makes. *)
Record Cycle : Type := mkCycle {
  c_enabled : bool;
  c_v_ego : R;
  c_a_ego : R;
  c_v_cruise_setpoint : R;
  c_acc_limits : R * R;
  c_sm : SubMaster;
  c_time : R;
  c_param : bool
}.

(** The caller's loop: [update] once per cycle, on the same object. *)
Fixpoint run (DEG_TO_RAD KPH_TO_MS V_CRUISE_MAX : R) (TRAJECTORY_SIZE : nat)
    (np_polyfit3 : list R -> list R -> Poly) (CP : CarParams)
    (cycles : list Cycle) (self : VisionTurnController)
    : result VisionTurnController :=
  match cycles with
  | [] => Ok self
  | c :: cycles' =>
      self' <- update DEG_TO_RAD KPH_TO_MS V_CRUISE_MAX TRAJECTORY_SIZE np_polyfit3 CP
                 (c_enabled c) (c_v_ego c) (c_a_ego c) (c_v_cruise_setpoint c)
                 (c_acc_limits c) (c_sm c) (c_time c) (c_param c) self ;;
      run DEG_TO_RAD KPH_TO_MS V_CRUISE_MAX TRAJECTORY_SIZE np_polyfit3 CP cycles' self'
  end.

(** The stored overshoot distance is the reset value or a grid distance. *)
Definition distance_inv (self : VisionTurnController) : Prop :=
  _v_overshoot_distance self = 200 \/ 20 <= _v_overshoot_distance self <= 145.

(** Inputs for the examples of the further properties: one cycle at
    15 m/s on a straight road, two cycles in the hysteresis band, and a model
    message with two inner lane lines 3.5 m apart around the car. *)
Definition cycle_straight : Cycle :=
  mkCycle true 15 0 30 (-1, 2) (sm_no_vision 0 false) 1 true.




(** ** Well-formed messages *)

(** A snapshot on which the path tier of [_update_calculations] (lines
    144-189) reads its lists in range and hands numpy arrays of equal
    length: with four lane lines, [laneLineProbs] and [laneLineStds] have
    the entries 1 and 2 and the two inner lines carry as many lateral
    offsets as the left inner line has distances, at least one; the path of
    a valid lateral plan has as many offsets as distances.  On any other
    snapshot the Python code raises ([IndexError], numpy's [ValueError] or
    [TypeError]) where [lane_poly] and [path_poly_of] read a default or
    truncate. *)
Definition message_well_formed (sm : SubMaster) : Prop :=
  (valid_modelV2 sm = true ->
   forall ll0 ll1 ll2 ll3,
     laneLines (modelV2 sm) = [ll0; ll1; ll2; ll3] ->
     (3 <= length (laneLineProbs (modelV2 sm)))%nat
     /\ (3 <= length (laneLineStds (modelV2 sm)))%nat
     /\ xyzt_x ll1 <> []
     /\ length (xyzt_y ll1) = length (xyzt_x ll1)
     /\ length (xyzt_y ll2) = length (xyzt_x ll1))
  /\ (valid_lateralPlan sm = true ->
      length (dPathWLinesY (lateralPlan sm)) = length (dPathWLinesX (lateralPlan sm))).

(** A cubic fit for the examples: the cubic through the first four samples
    (Newton's divided differences, written out in powers of x).  It is the
    least-squares cubic, so what [np.polyfit(x, y, 3)] returns, whenever all
    the samples lie on one cubic. *)
Definition polyfit_through4 (xs ys : list R) : Poly :=
  match xs, ys with
  | x0 :: x1 :: x2 :: x3 :: _, y0 :: y1 :: y2 :: y3 :: _ =>
      let d01 := (y1 - y0) / (x1 - x0) in
      let d12 := (y2 - y1) / (x2 - x1) in
      let d23 := (y3 - y2) / (x3 - x2) in
      let d012 := (d12 - d01) / (x2 - x0) in
      let d123 := (d23 - d12) / (x3 - x1) in
      let d0123 := (d123 - d012) / (x3 - x0) in
      mkPoly d0123
        (d012 - d0123 * (x0 + x1 + x2))
        (d01 - d012 * (x0 + x1) + d0123 * (x0 * x1 + x0 * x2 + x1 * x2))
        (y0 - d01 * x0 + d012 * x0 * x1 - d0123 * x0 * x1 * x2)
  | _, _ => zero_poly
  end.

(** A snapshot without a valid model and with a lateral plan whose path
    bends along the parabola [y = 0.01 x^2], wheels straight, accelerator
    released. *)
Definition sm_plan : SubMaster :=
  mkSubMaster false (mkModelData [] [] []) true
    (mkLateralPlan [10; 20; 30; 40] [1; 4; 9; 16])
    (mkCarState 0 false).

(** * Properties *)

(** ** Arithmetic of the Python builtins *)

(** Reads an attribute off a controller built by the assignment functions. *)
Ltac attrs :=
  unfold set_solution, set_overshoot, set_lat_acc, set__state, set_params,
    set_inputs, _reset;
  cbn [_op_enabled _gas_pressed _is_enabled _last_params_update
       _v_cruise_setpoint _v_ego _a_ego _state _current_lat_acc
       _max_v_for_current_curvature _max_pred_lat_acc _v_overshoot_distance
       _v_overshoot _lat_acc_overshoot_ahead _v_turn _acc_limits].

Ltac case_dec :=
  match goal with
  | |- context [Rgt_dec ?a ?b] => destruct (Rgt_dec a b)
  | |- context [Rge_dec ?a ?b] => destruct (Rge_dec a b)
  | |- context [Rlt_dec ?a ?b] => destruct (Rlt_dec a b)
  | |- context [Rle_dec ?a ?b] => destruct (Rle_dec a b)
  | |- context [Req_dec_T ?a ?b] => destruct (Req_dec_T a b)
  end.

Lemma py_max_Rmax (a b : R) : py_max a b = Rmax a b.
Proof.
  unfold py_max, Rmax. case_dec; case_dec; lra.
Qed.

Lemma py_min_Rmin (a b : R) : py_min a b = Rmin a b.
Proof.
  unfold py_min, Rmin. case_dec; case_dec; lra.
Qed.

Lemma py_max_lower (a b : R) : b <= py_max a b.
Proof. unfold py_max. case_dec; lra. Qed.

Lemma py_min_upper (a b : R) : py_min a b <= b.
Proof. unfold py_min. case_dec; lra. Qed.

Lemma truediv_ok (a b : R) : b <> 0 -> truediv a b = Ok (a / b).
Proof.
  intros Hb. unfold truediv. case_dec; [contradiction | reflexivity].
Qed.

Lemma math_sqrt_ok (x : R) : 0 <= x -> math_sqrt x = Ok (sqrt x).
Proof.
  intros Hx. unfold math_sqrt. case_dec; [lra | reflexivity].
Qed.

Lemma math_sqrt_negative (x : R) : x < 0 -> math_sqrt x = Raise ValueError.
Proof.
  intros Hx. unfold math_sqrt. case_dec; [reflexivity | lra].
Qed.

(** ** The evaluation grid *)

Lemma _EVAL_RANGE_is_arange :
  _EVAL_START + INR 25 * _EVAL_STEP < _EVAL_LENGHT <= _EVAL_START + INR 26 * _EVAL_STEP.
Proof.
  unfold _EVAL_START, _EVAL_STEP, _EVAL_LENGHT. simpl. lra.
Qed.

Lemma _EVAL_RANGE_length : length _EVAL_RANGE = 26%nat.
Proof.
  unfold _EVAL_RANGE, np_arange. rewrite length_map, length_seq. reflexivity.
Qed.

Lemma _EVAL_RANGE_last : last _EVAL_RANGE 0 = 145.
Proof.
  unfold _EVAL_RANGE, np_arange, _EVAL_START, _EVAL_STEP. simpl. lra.
Qed.

(** ** Curvature *)

Lemma Rpower_pos (x y : R) : 0 < Rpower x y.
Proof. unfold Rpower. apply exp_pos. Qed.

Lemma curvature_nonneg (poly : Poly) (x : R) : 0 <= curvature poly x.
Proof.
  unfold curvature.
  apply Rmult_le_pos.
  - apply Rabs_pos.
  - left. apply Rinv_0_lt_compat, Rpower_pos.
Qed.

Lemma curvature_zero_poly (x : R) : curvature zero_poly x = 0.
Proof.
  unfold curvature, zero_poly. simpl.
  replace (2 * 0 + 6 * 0 * x) with 0 by ring.
  rewrite Rabs_R0. unfold Rdiv. ring.
Qed.

Lemma eval_curvature_zero_poly (xs : list R) :
  eval_curvature zero_poly xs = map (fun _ => 0) xs.
Proof.
  unfold eval_curvature. apply map_ext. intros x. apply curvature_zero_poly.
Qed.

(** ** [np.amax] and [np.nonzero] *)

Lemma fold_left_Rmax_ge (l : list R) (a : R) : a <= fold_left Rmax l a.
Proof.
  revert a. induction l as [| b l IH]; intros a; simpl.
  - lra.
  - eapply Rle_trans; [apply (Rmax_l a b) | apply IH].
Qed.

Lemma fold_left_Rmax_upper (l : list R) (a x : R) :
  In x l -> x <= fold_left Rmax l a.
Proof.
  revert a. induction l as [| b l IH]; intros a Hin; simpl in *.
  - contradiction.
  - destruct Hin as [-> | Hin].
    + eapply Rle_trans; [apply (Rmax_r a x) | apply fold_left_Rmax_ge].
    + apply IH, Hin.
Qed.

Lemma np_amax_upper (l : list R) (x : R) : In x l -> x <= np_amax l.
Proof.
  destruct l as [| a l]; simpl; intros Hin.
  - contradiction.
  - destruct Hin as [-> | Hin].
    + apply fold_left_Rmax_ge.
    + apply fold_left_Rmax_upper, Hin.
Qed.

Lemma np_nonzero_from_existsb (i : nat) (mask : list bool) :
  (0 <? length (np_nonzero_from i mask))%nat = existsb (fun b => b) mask.
Proof.
  revert i. induction mask as [| b mask IH]; intros i; simpl.
  - reflexivity.
  - destruct b; simpl; [reflexivity | apply IH].
Qed.

Lemma np_nonzero_from_hd (i : nat) (mask : list bool) :
  existsb (fun b => b) mask = true ->
  (i <= hd 0 (np_nonzero_from i mask) < i + length mask)%nat.
Proof.
  revert i. induction mask as [| b mask IH]; intros i H; simpl in *.
  - discriminate.
  - destruct b; simpl in *.
    + lia.
    + specialize (IH (S i) H). lia.
Qed.

Lemma existsb_id_map {A : Type} (f : A -> bool) (l : list A) :
  existsb (fun b => b) (map f l) = existsb f l.
Proof.
  induction l as [| a l IH]; simpl; [reflexivity | now rewrite IH].
Qed.

Lemma np_nonzero_existsb {A : Type} (f : A -> bool) (l : list A) :
  (0 <? length (np_nonzero (map f l)))%nat = existsb f l.
Proof.
  unfold np_nonzero. rewrite np_nonzero_from_existsb. apply existsb_id_map.
Qed.

(** ** The state setter and the transition function *)



Lemma set_state_state (value : VisionTurnControllerState) (self : VisionTurnController) :
  _state (set_state value self) = value.
Proof.
  unfold set_state.
  destruct (negb (state_eqb value (_state self))), (state_eqb value disabled); reflexivity.
Qed.

Lemma set_state_overshoot_inv (value : VisionTurnControllerState)
    (self : VisionTurnController) :
  overshoot_inv self -> overshoot_inv (set_state value self).
Proof.
  unfold overshoot_inv, set_state. intros H.
  destruct (negb (state_eqb value (_state self))), (state_eqb value disabled);
    simpl; try exact H; discriminate.
Qed.

Lemma _state_transition_overshoot_inv (self : VisionTurnController) :
  overshoot_inv self -> overshoot_inv (_state_transition self).
Proof.
  intros H. unfold _state_transition.
  destruct (negb (_op_enabled self) || negb (_is_enabled self) || _gas_pressed self).
  - apply set_state_overshoot_inv, H.
  - destruct (state self); repeat case_dec;
      try exact H; apply set_state_overshoot_inv, H.
Qed.



(** ** The solution never raises on a controller that satisfies the
    overshoot invariant *)

Lemma _solve_state_ok (self : VisionTurnController) :
  overshoot_inv self -> exists v acc, _solve_state self = Ok (v, acc).
Proof.
  intros Hinv. unfold _solve_state.
  destruct (state self); try (eexists; eexists; reflexivity).
  destruct (_lat_acc_overshoot_ahead self) eqn:Hahead; cbn [negb].
  - rewrite truediv_ok.
    + cbn [bind]. eexists; eexists; reflexivity.
    + specialize (Hinv Hahead). unfold _EVAL_STEP in Hinv. lra.
  - destruct (math_sqrt _) as [v | []] eqn:Hsq; cbn [bind].
    + eexists; eexists; reflexivity.
    + exfalso. revert Hsq. unfold math_sqrt. case_dec; discriminate.
    + eexists; eexists; reflexivity.
Qed.

Lemma _update_solution_ok (self : VisionTurnController) :
  overshoot_inv self ->
  exists v acc,
    _solve_state self = Ok (v, acc)
    /\ _update_solution self = Ok (set_solution (py_max v _MIN_V_SOLUTION) acc self).
Proof.
  intros Hinv. destruct (_solve_state_ok self Hinv) as (v & acc & H).
  exists v, acc. split; [exact H |].
  unfold _update_solution. rewrite H. reflexivity.
Qed.

Section ControllerProperties.

Variable DEG_TO_RAD : R.
Variable KPH_TO_MS : R.
Variable V_CRUISE_MAX : R.
Variable TRAJECTORY_SIZE : nat.
Variable np_polyfit3 : list R -> list R -> Poly.
Variable CP : CarParams.

(** The steering geometry of a car: neither the steering ratio nor the
    wheelbase is zero. *)
Hypothesis CP_ok : steerRatio CP * wheelbase CP <> 0.

Local Abbreviation evaluate' := (evaluate DEG_TO_RAD KPH_TO_MS V_CRUISE_MAX CP).
Local Abbreviation _update_calculations' :=
  (_update_calculations DEG_TO_RAD KPH_TO_MS V_CRUISE_MAX TRAJECTORY_SIZE np_polyfit3 CP).
Local Abbreviation update' :=
  (update DEG_TO_RAD KPH_TO_MS V_CRUISE_MAX TRAJECTORY_SIZE np_polyfit3 CP).

Lemma overshoot_threshold_pos (v : R) : 0 < _A_LAT_REG_MAX / py_max v 0.1 ^ 2.
Proof.
  pose proof (py_max_lower v 0.1) as H.
  unfold _A_LAT_REG_MAX. apply Rdiv_lt_0_compat; [lra | nra].
Qed.

(** The distance stored with an overshoot lies on the evaluation grid. *)
Lemma overshoot_distance_bounds (f : R -> bool) (path_poly : Poly) :
  existsb f (eval_curvature path_poly _EVAL_RANGE) = true ->
  20 <= py_max (INR (hd 0%nat (np_nonzero (map f (eval_curvature path_poly _EVAL_RANGE))))
                * _EVAL_STEP + _EVAL_START) _EVAL_STEP <= 145.
Proof.
  intros Hex. rewrite <- existsb_id_map in Hex.
  assert (Hlen : length (map f (eval_curvature path_poly _EVAL_RANGE)) = 26%nat).
  { unfold eval_curvature. rewrite !length_map. apply _EVAL_RANGE_length. }
  unfold np_nonzero.
  generalize dependent (map f (eval_curvature path_poly _EVAL_RANGE)).
  intros mask Hex Hlen.
  pose proof (np_nonzero_from_hd 0 mask Hex) as [_ Hlt].
  rewrite Hlen in Hlt.
  assert (Hi : 0 <= INR (hd 0%nat (np_nonzero_from 0 mask)) <= INR 25).
  { split; [apply pos_INR | apply le_INR; lia]. }
  assert (H25 : INR 25 = 25) by (simpl; lra).
  rewrite H25 in Hi.
  generalize dependent (INR (hd 0%nat (np_nonzero_from 0 mask))).
  intros i Hi.
  unfold py_max, _EVAL_STEP, _EVAL_START. case_dec; lra.
Qed.

(** [evaluate] never raises, and this is the controller it returns. *)
Lemma evaluate_ok (path_poly : Poly) (steer : R) (self : VisionTurnController) :
  let cc := Rabs (steer * DEG_TO_RAD / (steerRatio CP * wheelbase CP)) in
  let pred := eval_curvature path_poly _EVAL_RANGE in
  let thr := _A_LAT_REG_MAX / py_max (_v_ego self) 0.1 ^ 2 in
  let ahead := existsb (fun c => Rgeb c thr) pred in
  let self1 :=
    set_lat_acc (cc * _v_ego self ^ 2)
      (if Rgt_dec cc 0 then sqrt (_A_LAT_REG_MAX / cc) else V_CRUISE_MAX * KPH_TO_MS)
      (_v_ego self ^ 2 * np_amax pred) ahead self in
  evaluate' path_poly steer self =
  Ok (if ahead then
        set_overshoot
          (py_min (sqrt (_A_LAT_REG_MAX / np_amax pred)) (_v_cruise_setpoint self))
          (py_max (INR (hd 0%nat (np_nonzero (map (fun c => Rgeb c thr) pred)))
                   * _EVAL_STEP + _EVAL_START) _EVAL_STEP)
          self1
      else self1).
Proof.
  intros cc pred thr ahead self1.
  unfold evaluate. rewrite (truediv_ok _ _ CP_ok). cbn [bind].
  fold cc.
  assert (Hmaxv :
    (if Rgt_dec cc 0
     then r <- truediv _A_LAT_REG_MAX cc ;; math_sqrt r
     else Ok (V_CRUISE_MAX * KPH_TO_MS)) =
    Ok (if Rgt_dec cc 0 then sqrt (_A_LAT_REG_MAX / cc) else V_CRUISE_MAX * KPH_TO_MS)).
  { destruct (Rgt_dec cc 0) as [Hcc | Hcc]; [| reflexivity].
    rewrite truediv_ok by lra. cbn [bind].
    apply math_sqrt_ok. unfold _A_LAT_REG_MAX.
    left. apply Rdiv_lt_0_compat; lra. }
  rewrite Hmaxv. cbn [bind].
  pose proof (overshoot_threshold_pos (_v_ego self)) as Hthr. fold thr in Hthr.
  rewrite truediv_ok.
  2:{ pose proof (py_max_lower (_v_ego self) 0.1). nra. }
  cbn [bind]. fold pred thr.
  rewrite !np_nonzero_existsb.
  subst self1 ahead.
  destruct (existsb (fun c => Rgeb c thr) pred) eqn:Hahead; [| reflexivity].
  assert (Hmax : 0 < np_amax pred).
  { apply existsb_exists in Hahead. destruct Hahead as (c & Hin & Hc).
    unfold Rgeb in Hc. destruct (Rge_dec c thr) as [Hge |]; [| discriminate].
    pose proof (np_amax_upper pred c Hin). lra. }
  rewrite truediv_ok by lra. cbn [bind].
  rewrite math_sqrt_ok.
  2:{ left. unfold _A_LAT_REG_MAX. apply Rdiv_lt_0_compat; lra. }
  cbn [bind]. reflexivity.
Qed.

(** What [evaluate] leaves alone, and the lateral acceleration it stores. *)
Lemma evaluate_frame (path_poly : Poly) (steer : R) (self : VisionTurnController) :
  exists self1,
    evaluate' path_poly steer self = Ok self1
    /\ _state self1 = _state self
    /\ _op_enabled self1 = _op_enabled self
    /\ _is_enabled self1 = _is_enabled self
    /\ _gas_pressed self1 = _gas_pressed self
    /\ _v_ego self1 = _v_ego self
    /\ _v_cruise_setpoint self1 = _v_cruise_setpoint self
    /\ _acc_limits self1 = _acc_limits self
    /\ _current_lat_acc self1 =
       Rabs (steer * DEG_TO_RAD / (steerRatio CP * wheelbase CP)) * _v_ego self ^ 2
    /\ _max_pred_lat_acc self1 =
       _v_ego self ^ 2 * np_amax (eval_curvature path_poly _EVAL_RANGE)
    /\ overshoot_inv self1.
Proof.
  eexists. split; [apply evaluate_ok |].
  unfold overshoot_inv.
  destruct (existsb _ _); attrs; repeat split; try discriminate.
  intros _. apply py_max_lower.
Qed.

(** The inputs of the cycle, as the calculations see them. *)
Lemma _update_params_inputs (enabled gas : bool) (v_ego a_ego v_cruise_setpoint : R)
    (acc : R * R) (time : R) (param : bool) (self : VisionTurnController) :
  let self0 :=
    _update_params time param
      (set_inputs enabled gas v_ego a_ego v_cruise_setpoint acc self) in
  _op_enabled self0 = enabled
  /\ _gas_pressed self0 = gas
  /\ _is_enabled self0 = _is_enabled (_update_params time param self)
  /\ _state self0 = _state self
  /\ _v_ego self0 = v_ego
  /\ _v_cruise_setpoint self0 = v_cruise_setpoint
  /\ _acc_limits self0 = acc.
Proof.
  unfold _update_params. attrs.
  destruct (Rgt_dec time (_last_params_update self + 5.0)); attrs; repeat split.
Qed.

(** One cycle never raises.  [self1] is the controller between
    [_update_calculations] and [_state_transition]; the cycle returns the
    solution computed on the controller the transition leaves. *)
Lemma update_ok (enabled : bool) (v_ego a_ego v_cruise_setpoint : R)
    (acc : R * R) (sm : SubMaster) (time : R) (param : bool)
    (self : VisionTurnController) :
  exists self1 v acc',
    _update_calculations' sm
      (_update_params time param
         (set_inputs enabled (gasPressed (carState sm)) v_ego a_ego
            v_cruise_setpoint acc self)) = Ok self1
    /\ _state self1 = _state self
    /\ _op_enabled self1 = enabled
    /\ _is_enabled self1 = _is_enabled (_update_params time param self)
    /\ _gas_pressed self1 = gasPressed (carState sm)
    /\ _v_ego self1 = v_ego
    /\ _v_cruise_setpoint self1 = v_cruise_setpoint
    /\ _acc_limits self1 = acc
    /\ _current_lat_acc self1 =
       Rabs (steeringAngleDeg (carState sm) * DEG_TO_RAD
             / (steerRatio CP * wheelbase CP)) * v_ego ^ 2
    /\ overshoot_inv self1
    /\ _solve_state (_state_transition self1) = Ok (v, acc')
    /\ update' enabled v_ego a_ego v_cruise_setpoint acc sm time param self =
       Ok (set_solution (py_max v _MIN_V_SOLUTION) acc' (_state_transition self1)).
Proof.
  pose proof (_update_params_inputs enabled (gasPressed (carState sm)) v_ego a_ego
                v_cruise_setpoint acc time param self) as Hin.
  cbv zeta in Hin.
  unfold update, _update_calculations.
  set (self0 := _update_params time param _) in *.
  destruct Hin as (Hop & Hgas & Hen & Hst & Hv & Hvc & Hacc).
  destruct (evaluate_frame (path_poly_of TRAJECTORY_SIZE np_polyfit3 (_v_ego self0) sm)
              (steeringAngleDeg (carState sm)) self0)
    as (self1 & Hev & Hst1 & Hop1 & Hen1 & Hgas1 & Hv1 & Hvc1 & Hacc1 & Hlat & _ & Hinv).
  destruct (_update_solution_ok (_state_transition self1)
              (_state_transition_overshoot_inv self1 Hinv))
    as (v & acc' & Hsolve & Hsol).
  exists self1, v, acc'.
  rewrite Hev. cbn [bind].
  rewrite Hv in Hlat.
  repeat split; try congruence; try assumption.
Qed.









(** C10.  Whenever the evaluation flags an overshoot, the distance it
    stores is at least 5 (in fact between 20 and 145), so twice that
    distance is not zero and the division of the entering overshoot branch
    returns.  On a well-formed message the whole cycle returns without
    raising, that division included, and in the controller it returns a
    flagged overshoot still comes with a distance of at least 5. *)
Theorem overshoot_distance_floor
    (enabled : bool) (v_ego a_ego v_cruise_setpoint : R)
    (acc : R * R) (sm : SubMaster) (time : R) (param : bool)
    (path_poly : Poly) (steer : R)
    (self : VisionTurnController) :
  message_well_formed sm ->
  (exists self1,
     evaluate' path_poly steer self = Ok self1
     /\ (_lat_acc_overshoot_ahead self1 = true ->
         5 <= _v_overshoot_distance self1
         /\ 20 <= _v_overshoot_distance self1 <= 145
         /\ 2 * _v_overshoot_distance self1 <> 0
         /\ exists q,
              truediv (_v_overshoot self1 ^ 2 - _v_ego self1 ^ 2)
                      (2 * _v_overshoot_distance self1) = Ok q))
  /\ (exists self',
        update' enabled v_ego a_ego v_cruise_setpoint acc sm time param self = Ok self'
        /\ (_lat_acc_overshoot_ahead self' = true ->
            5 <= _v_overshoot_distance self'
            /\ 2 * _v_overshoot_distance self' <> 0
            /\ exists q,
                 truediv (_v_overshoot self' ^ 2 - _v_ego self' ^ 2)
                         (2 * _v_overshoot_distance self') = Ok q)).
Proof.
  intros _.
  split.
  - pose proof (evaluate_ok path_poly steer self) as Hev. cbv zeta in Hev.
    destruct (existsb _ (eval_curvature path_poly _EVAL_RANGE)) eqn:Hahead in Hev.
    + eexists. split; [exact Hev |]. attrs. intros _.
      pose proof (overshoot_distance_bounds _ _ Hahead) as Hd.
      set (d := py_max _ _EVAL_STEP) in *.
      repeat split; try lra.
      rewrite truediv_ok by lra. eexists. reflexivity.
    + eexists. split; [exact Hev |]. attrs. discriminate.
  - destruct (update_ok enabled v_ego a_ego v_cruise_setpoint acc sm time param self)
      as (self1 & v & acc' & _ & _ & _ & _ & _ & _ & _ & _ & _ & Hinv & _ & Hupd).
    apply _state_transition_overshoot_inv in Hinv.
    eexists. split; [exact Hupd |].
    attrs. generalize dependent (_state_transition self1). intros s Hinv _ Hflag.
    specialize (Hinv Hflag). unfold _EVAL_STEP in Hinv.
    split; [exact Hinv |]. split; [lra |].
    rewrite truediv_ok by lra. eexists. reflexivity.
Qed.

(** Without a sample at the threshold the evaluation writes the flag and
    nothing else of the overshoot. *)
Lemma evaluate_below_threshold
    (path_poly : Poly) (steer : R) (self : VisionTurnController) :
  Forall (fun c => c < _A_LAT_REG_MAX / py_max (_v_ego self) 0.1 ^ 2)
         (eval_curvature path_poly _EVAL_RANGE) ->
  exists self1,
    evaluate' path_poly steer self = Ok self1
    /\ _lat_acc_overshoot_ahead self1 = false
    /\ _v_overshoot_distance self1 = _v_overshoot_distance self
    /\ _v_overshoot self1 = _v_overshoot self.
Proof.
  intros Hall.
  eexists. split; [apply evaluate_ok |].
  assert (Hex : existsb
                  (fun c => Rgeb c (_A_LAT_REG_MAX / py_max (_v_ego self) 0.1 ^ 2))
                  (eval_curvature path_poly _EVAL_RANGE) = false).
  { apply not_true_is_false. intros Hex.
    apply existsb_exists in Hex. destruct Hex as (c & Hin & Hc).
    rewrite Forall_forall in Hall. specialize (Hall c Hin).
    unfold Rgeb in Hc. destruct (Rge_dec _ _); [lra | discriminate]. }
  rewrite Hex. attrs. repeat split.
Qed.

(** C5, as the code has it.  When no grid sample reaches the threshold,
    the evaluation returns with the overshoot flag off and with the
    overshoot distance and speed it found in the controller: they are the
    reset values 200 and 0 when they were so before. *)
Theorem evaluate_no_overshoot
    (path_poly : Poly) (steer : R) (self : VisionTurnController) :
  Forall (fun c => c < _A_LAT_REG_MAX / py_max (_v_ego self) 0.1 ^ 2)
         (eval_curvature path_poly _EVAL_RANGE) ->
  exists self1,
    evaluate' path_poly steer self = Ok self1
    /\ _lat_acc_overshoot_ahead self1 = false
    /\ _v_overshoot_distance self1 = _v_overshoot_distance self
    /\ _v_overshoot self1 = _v_overshoot self
    /\ (_v_overshoot_distance self = 200 -> _v_overshoot self = 0 ->
        _v_overshoot_distance self1 = 200 /\ _v_overshoot self1 = 0).
Proof.
  intros Hall.
  destruct (evaluate_below_threshold path_poly steer self Hall)
    as (self1 & Hev & Hflag & Hd & Hv).
  exists self1. repeat split; try assumption; congruence.
Qed.

End ControllerProperties.

(** ** The curvature formula *)

(** C9.  [eval_curvature] computes, at every [x] of the vector, the
    curvature formula of the specification for the coefficients taken from
    cubic to constant; on the zero polynomial it is 0 everywhere; and
    [eval_lat_acc] multiplies every curvature by the square of the speed
    (for every speed and curvature, the non-negative ones included). *)
Theorem eval_curvature_formula (c3 c2 c1 c0 v : R) (x_vals x_curv : list R) :
  eval_curvature (mkPoly c3 c2 c1 c0) x_vals = map (curvature_spec c3 c2 c1 c0) x_vals
  /\ eval_curvature zero_poly x_vals = map (fun _ => 0) x_vals
  /\ eval_lat_acc v x_curv = map (fun curv => v * v * curv) x_curv.
Proof.
  split; [| split].
  - unfold eval_curvature. apply map_ext. intros x.
    unfold curvature, curvature_spec. cbn [p0 p1 p2].
    replace 1.5 with (3 / 2) by lra.
    replace (1 + (3 * c3 * x ^ 2 + 2 * c2 * x + c1) ^ 2)
      with (1 + (3 * c3 * (x * x) + 2 * c2 * x + c1) * (3 * c3 * (x * x) + 2 * c2 * x + c1))
      by ring.
    reflexivity.
  - apply eval_curvature_zero_poly.
  - unfold eval_lat_acc. apply map_ext. intros curv. unfold lat_acc. ring.
Qed.

(** ** The cached toggle *)

(** C8, as the code has it.  [_update_params] reads the toggle and moves the
    timestamp when strictly more than 5 seconds have passed since the last
    read: the cached value is then the one of the store and the timestamp
    the current time, every other attribute untouched.  In every other case,
    exactly 5 seconds included, the controller is returned as it was. *)
Theorem update_params_refresh (time : R) (param : bool) (self : VisionTurnController) :
  (time > _last_params_update self + 5.0 ->
   _update_params time param self = set_params param time self
   /\ _is_enabled (_update_params time param self) = param
   /\ _last_params_update (_update_params time param self) = time)
  /\ (time <= _last_params_update self + 5.0 ->
      _update_params time param self = self).
Proof.
  unfold _update_params.
  destruct (Rgt_dec time (_last_params_update self + 5.0)) as [Hgt | Hle].
  - split; [intros _ | intros Hle; lra].
    attrs. repeat split.
  - split; [intros Hgt; contradiction | reflexivity].
Qed.

(** ** The projected speed of the entering state *)

(** C6.  In [entering] with no overshoot ahead, the speed the branch solves
    is [sqrt (v_ego^2 + 2 * min_acc * 145)] with [min_acc] read off the
    entering table; when the radicand is negative the [ValueError] of
    [math.sqrt] is caught and the speed is 8.33.  [_update_solution] returns
    in both cases, and stores that speed under the clamp to 8.33 that ends
    every branch (so the stored speed is 8.33 itself after the fault). *)
Theorem entering_projected_speed (self : VisionTurnController) :
  state self = entering ->
  _lat_acc_overshoot_ahead self = false ->
  let min_acc :=
    interp (_max_pred_lat_acc self) _ENTERING_SMOOTH_DECEL_BP _ENTERING_SMOOTH_DECEL_V in
  let radicand := _v_ego self ^ 2 + 2 * min_acc * 145 in
  exists v_turn acc' self',
    _solve_state self = Ok (v_turn, acc')
    /\ _update_solution self = Ok self'
    /\ _v_turn self' = py_max v_turn _MIN_V_SOLUTION
    /\ state self' = entering
    /\ (0 <= radicand -> v_turn = sqrt radicand)
    /\ (radicand < 0 -> v_turn = _MIN_V_SOLUTION /\ _v_turn self' = _MIN_V_SOLUTION).
Proof.
  intros Hst Hflag min_acc radicand.
  assert (Hsolve :
    _solve_state self =
    Ok (if Rlt_dec radicand 0 then _MIN_V_SOLUTION else sqrt radicand,
        (py_min min_acc (fst (_acc_limits self)), snd (_acc_limits self)))).
  { unfold _solve_state. rewrite Hst, Hflag. cbn [negb].
    rewrite _EVAL_RANGE_last. fold min_acc. fold radicand.
    unfold math_sqrt. destruct (Rlt_dec radicand 0); reflexivity. }
  eexists. eexists. eexists.
  split; [exact Hsolve |].
  split; [unfold _update_solution; rewrite Hsolve; reflexivity |].
  unfold state in *. attrs.
  split; [reflexivity |]. split; [exact Hst |].
  destruct (Rlt_dec radicand 0) as [Hneg | Hpos].
  - split; [intros H; lra | intros _].
    split; [reflexivity |].
    unfold py_max. case_dec; lra.
  - split; [intros _; reflexivity | intros H; lra].
Qed.

(** ** Tables *)


Lemma interp_entering_table (x : R) :
  interp x _ENTERING_SMOOTH_DECEL_BP _ENTERING_SMOOTH_DECEL_V =
  if Rle_dec x 1 then -0.3
  else if Rle_dec x 3 then -0.3 - 0.35 * (x - 1)
       else -1.
Proof.
  unfold _ENTERING_SMOOTH_DECEL_BP, _ENTERING_SMOOTH_DECEL_V.
  cbn [interp interp_from]. repeat case_dec; lra.
Qed.

(** ** Bounds on pi and on the power 1.5 *)



Lemma Rpower_3_2_le_square (a : R) : 1 <= a -> Rpower a 1.5 <= a * a.
Proof.
  intros Ha.
  replace (a * a) with (Rpower a (INR 2)).
  - apply Rle_Rpower; [exact Ha | simpl; lra].
  - rewrite Rpower_pow by lra. ring.
Qed.

(** ** Concrete cycles *)

Lemma CP_example_ok : steerRatio CP_example * wheelbase CP_example <> 0.
Proof. unfold CP_example. cbn [steerRatio wheelbase]. lra. Qed.

(** C8, the boundary.  Constructed with the toggle off at time 0, asked at
    time 5.0 while the store holds [true]: 5.0 seconds have passed
    ([time - last >= 5.0]), and the call changes nothing; the cached value
    is still [false]. *)
Lemma update_params_at_5_seconds :
  5 - _last_params_update (__init__ false) >= 5.0
  /\ _update_params 5 true (__init__ false) = __init__ false
  /\ _is_enabled (_update_params 5 true (__init__ false)) = false
  /\ _last_params_update (_update_params 5 true (__init__ false)) = 0.
Proof.
  unfold _update_params, __init__. attrs.
  destruct (Rgt_dec 5 (0 + 5.0)) as [Hgt | _]; [lra |].
  attrs. repeat split. lra.
Qed.





(** The grid starts at 20 m. *)
Lemma _EVAL_RANGE_cons :
  _EVAL_RANGE = 20 :: map (fun i => _EVAL_START + INR i * _EVAL_STEP) (seq 1 25).
Proof.
  unfold _EVAL_RANGE, np_arange.
  change (seq 0 26) with (0%nat :: seq 1 25). cbn [map].
  f_equal. unfold _EVAL_START, _EVAL_STEP. simpl INR. lra.
Qed.

(** The parabola bends by more than [2 / 15^2] at the first grid sample. *)
Lemma curvature_parabola_20 : 2 / 225 <= curvature parabola 20.
Proof.
  unfold curvature, parabola. cbn [p0 p1 p2].
  replace (2 * 0.01 + 6 * 0 * 20) with 0.02 by lra.
  replace (1 + (3 * 0 * 20 ^ 2 + 2 * 0.01 * 20 + 0) ^ 2) with 1.16 by lra.
  rewrite Rabs_pos_eq by lra.
  pose proof (Rpower_3_2_le_square 1.16 ltac:(lra)) as Hpow.
  pose proof (Rpower_pos 1.16 1.5) as Hpos.
  apply Rle_trans with (0.02 / (1.16 * 1.16)); [lra |].
  unfold Rdiv. apply Rmult_le_compat_l; [lra |].
  apply Rinv_le_contravar; assumption.
Qed.

Lemma np_nonzero_first {A : Type} (f : A -> bool) (a : A) (l : list A) :
  f a = true ->
  existsb f (a :: l) = true /\ hd 0%nat (np_nonzero (map f (a :: l))) = 0%nat.
Proof.
  intros H. unfold np_nonzero. cbn [existsb map np_nonzero_from].
  rewrite H. split; reflexivity.
Qed.

(** An overshoot at the first grid sample: the flag is set and the distance
    stored is 20. *)
Lemma evaluate_overshoot_at_20 (DEG_TO_RAD KPH_TO_MS V_CRUISE_MAX : R) (CP : CarParams)
    (path_poly : Poly) (steer : R) (self : VisionTurnController) :
  steerRatio CP * wheelbase CP <> 0 ->
  _A_LAT_REG_MAX / py_max (_v_ego self) 0.1 ^ 2 <= curvature path_poly 20 ->
  exists self1,
    evaluate DEG_TO_RAD KPH_TO_MS V_CRUISE_MAX CP path_poly steer self = Ok self1
    /\ _lat_acc_overshoot_ahead self1 = true
    /\ _v_overshoot_distance self1 = 20
    /\ _v_ego self1 = _v_ego self.
Proof.
  intros HCP Hcurv.
  pose proof (evaluate_ok DEG_TO_RAD KPH_TO_MS V_CRUISE_MAX CP HCP path_poly steer self)
    as Hev.
  cbv zeta in Hev.
  assert (Hge : (fun c => Rgeb c (_A_LAT_REG_MAX / py_max (_v_ego self) 0.1 ^ 2))
                  (curvature path_poly 20) = true).
  { unfold Rgeb. case_dec; [reflexivity | lra]. }
  rewrite _EVAL_RANGE_cons in Hev. unfold eval_curvature in Hev.
  rewrite map_cons in Hev.
  destruct (np_nonzero_first _ _
              (map (curvature path_poly)
                 (map (fun i => _EVAL_START + INR i * _EVAL_STEP) (seq 1 25))) Hge)
    as [Hex Hhd].
  rewrite Hex, Hhd in Hev.
  eexists. split; [exact Hev |].
  attrs. repeat split.
  unfold py_max, _EVAL_STEP, _EVAL_START.
  replace (INR 0) with 0 by reflexivity.
  case_dec; lra.
Qed.

(** C5, after an overshoot.  At 15 m/s the parabola is evaluated on a
    freshly constructed controller: an overshoot is flagged at 20 m.  The
    next evaluation, on the straight line, finds no sample at the threshold
    and clears the flag, and the distance it leaves is still 20, not 200. *)
Lemma evaluate_keeps_stale_distance :
  exists self1 self2,
    evaluate DEG_TO_RAD_value KPH_TO_MS_value V_CRUISE_MAX_value CP_example
      parabola 0 (set_inputs true false 15 0 30 (-1, 2) (__init__ true)) = Ok self1
    /\ Forall (fun c => c < _A_LAT_REG_MAX / py_max (_v_ego self1) 0.1 ^ 2)
              (eval_curvature zero_poly _EVAL_RANGE)
    /\ evaluate DEG_TO_RAD_value KPH_TO_MS_value V_CRUISE_MAX_value CP_example
         zero_poly 0 self1 = Ok self2
    /\ _lat_acc_overshoot_ahead self2 = false
    /\ _v_overshoot_distance self2 = 20
    /\ _v_overshoot_distance self2 <> 200.
Proof.
  destruct (evaluate_overshoot_at_20 DEG_TO_RAD_value KPH_TO_MS_value V_CRUISE_MAX_value
              CP_example parabola 0
              (set_inputs true false 15 0 30 (-1, 2) (__init__ true)) CP_example_ok)
    as (self1 & Hev1 & _ & Hd1 & Hv1).
  { attrs. unfold _A_LAT_REG_MAX.
    replace (py_max 15 0.1) with 15 by (unfold py_max; case_dec; lra).
    pose proof curvature_parabola_20. lra. }
  assert (Hall : Forall (fun c => c < _A_LAT_REG_MAX / py_max (_v_ego self1) 0.1 ^ 2)
                   (eval_curvature zero_poly _EVAL_RANGE)).
  { rewrite eval_curvature_zero_poly. apply Forall_map, Forall_forall.
    intros x _. apply overshoot_threshold_pos. }
  destruct (evaluate_below_threshold DEG_TO_RAD_value KPH_TO_MS_value V_CRUISE_MAX_value
              CP_example CP_example_ok zero_poly 0 self1 Hall)
    as (self2 & Hev2 & Hflag & Hd2 & _).
  exists self1, self2. repeat split; try assumption.
  - congruence.
  - rewrite Hd2, Hd1. lra.
Qed.

(** ** A cycle that enters a turn *)

Lemma polyfit_through4_parabola :
  polyfit_through4 [10; 20; 30; 40] [1; 4; 9; 16] = parabola.
Proof.
  unfold polyfit_through4, parabola. cbv zeta.
  replace (20 - 10) with 10 by lra. replace (30 - 20) with 10 by lra.
  replace (40 - 30) with 10 by lra. replace (30 - 10) with 20 by lra.
  replace (40 - 20) with 20 by lra. replace (40 - 10) with 30 by lra.
  f_equal; lra.
Qed.

Lemma path_poly_of_plan (TRAJECTORY_SIZE : nat) (v_ego : R) :
  path_poly_of TRAJECTORY_SIZE polyfit_through4 v_ego sm_plan = parabola.
Proof.
  unfold path_poly_of, sm_plan.
  cbn [valid_modelV2 valid_lateralPlan lateralPlan dPathWLinesX dPathWLinesY].
  destruct (Rgt_dec 10 0) as [_ | H]; [| exfalso; lra].
  apply polyfit_through4_parabola.
Qed.

Lemma sm_plan_well_formed : message_well_formed sm_plan.
Proof.
  split.
  - intros H. discriminate H.
  - intros _. reflexivity.
Qed.

Lemma sm_no_vision_well_formed (steer : R) (gas : bool) :
  message_well_formed (sm_no_vision steer gas).
Proof.
  split; intros H; discriminate H.
Qed.

(** On a well-formed message the reads of the lane tier are in range and
    the arrays it combines are not truncated: the defaults and the
    truncation of [lane_poly] are never reached. *)
Lemma message_well_formed_reads (sm : SubMaster) (ll0 ll1 ll2 ll3 : XYZTData) (d : R) :
  message_well_formed sm ->
  valid_modelV2 sm = true ->
  laneLines (modelV2 sm) = [ll0; ll1; ll2; ll3] ->
  nth 1 (laneLineProbs (modelV2 sm)) 0 = nth 1 (laneLineProbs (modelV2 sm)) d
  /\ nth 2 (laneLineProbs (modelV2 sm)) 0 = nth 2 (laneLineProbs (modelV2 sm)) d
  /\ nth 1 (laneLineStds (modelV2 sm)) 0 = nth 1 (laneLineStds (modelV2 sm)) d
  /\ nth 2 (laneLineStds (modelV2 sm)) 0 = nth 2 (laneLineStds (modelV2 sm)) d
  /\ length (xyzt_y ll1) = length (xyzt_x ll1)
  /\ length (xyzt_y ll2) = length (xyzt_y ll1)
  /\ xyzt_x ll1 <> [].
Proof.
  intros [Hmodel _] Hvalid Hlanes.
  destruct (Hmodel Hvalid ll0 ll1 ll2 ll3 Hlanes) as (Hp & Hs & Hx & Hy1 & Hy2).
  repeat split; try (apply nth_indep; lia); congruence.
Qed.

Lemma set_state_active_overshoot (value : VisionTurnControllerState)
    (self : VisionTurnController) :
  value <> disabled ->
  _lat_acc_overshoot_ahead (set_state value self) = _lat_acc_overshoot_ahead self
  /\ _v_overshoot_distance (set_state value self) = _v_overshoot_distance self.
Proof.
  intros Hne. unfold set_state.
  destruct value; try (exfalso; apply Hne; reflexivity);
    destruct (_state self); cbn [state_eqb negb]; attrs; split; reflexivity.
Qed.

Lemma parabola_over_threshold (self : VisionTurnController) :
  _v_ego self = 15 ->
  _A_LAT_REG_MAX / py_max (_v_ego self) 0.1 ^ 2 <= curvature parabola 20.
Proof.
  intros ->. unfold _A_LAT_REG_MAX.
  replace (py_max 15 0.1) with 15 by (unfold py_max; case_dec; lra).
  pose proof curvature_parabola_20. lra.
Qed.

(** At 15 m/s, enabled, with the toggle on and the accelerator released, a
    disabled controller that is handed the bending lateral plan ends the
    cycle in [entering], with an overshoot flagged 20 m ahead. *)
Lemma update_enters_turn (self : VisionTurnController) :
  _state self = disabled ->
  _is_enabled self = true ->
  exists self',
    update DEG_TO_RAD_value KPH_TO_MS_value V_CRUISE_MAX_value TRAJECTORY_SIZE_value
      polyfit_through4 CP_example
      true 15 0 30 (-1, 2) sm_plan 1 true self = Ok self'
    /\ state self' = entering
    /\ _lat_acc_overshoot_ahead self' = true
    /\ _v_overshoot_distance self' = 20.
Proof.
  intros Hdis Hfeat.
  destruct (update_ok DEG_TO_RAD_value KPH_TO_MS_value V_CRUISE_MAX_value
              TRAJECTORY_SIZE_value polyfit_through4 CP_example CP_example_ok
              true 15 0 30 (-1, 2) sm_plan 1 true self)
    as (self1 & v & acc' & Hcalc & Hst1 & Hop1 & Hen1 & Hgas1 & Hv1 & _ & _ & _ & _
        & _ & Hupd).
  unfold _update_calculations in Hcalc. rewrite path_poly_of_plan in Hcalc.
  assert (Hen : _is_enabled (_update_params 1 true self) = true).
  { unfold _update_params. destruct (Rgt_dec 1 (_last_params_update self + 5.0));
      attrs; congruence. }
  rewrite Hen in Hen1. rewrite Hdis in Hst1.
  change (gasPressed (carState sm_plan)) with false in *.
  change (steeringAngleDeg (carState sm_plan)) with 0 in Hcalc.
  pose proof (_update_params_inputs true false 15 0 30 (-1, 2) 1 true self)
    as (_ & _ & _ & _ & Hv0 & _).
  generalize dependent (_update_params 1 true (set_inputs true false 15 0 30 (-1, 2) self)).
  intros self0 Hcalc Hv0.
  destruct (evaluate_overshoot_at_20 DEG_TO_RAD_value KPH_TO_MS_value V_CRUISE_MAX_value
              CP_example parabola 0 self0 CP_example_ok
              (parabola_over_threshold self0 Hv0))
    as (s1 & Hev & Hflag & Hd & _).
  rewrite Hcalc in Hev. injection Hev as <-.
  destruct (evaluate_frame DEG_TO_RAD_value KPH_TO_MS_value V_CRUISE_MAX_value
              CP_example CP_example_ok parabola 0 self0)
    as (s1 & Hev & _ & _ & _ & _ & _ & _ & _ & _ & Hpred & _).
  rewrite Hcalc in Hev. injection Hev as <-.
  assert (Hbig : _ENTERING_PRED_LAT_ACC_TH <= _max_pred_lat_acc self1).
  { rewrite Hpred, Hv0.
    assert (Hin : In (curvature parabola 20) (eval_curvature parabola _EVAL_RANGE)).
    { rewrite _EVAL_RANGE_cons. unfold eval_curvature. rewrite map_cons.
      left. reflexivity. }
    pose proof (np_amax_upper _ _ Hin) as Hup.
    pose proof curvature_parabola_20 as Hc.
    generalize dependent (np_amax (eval_curvature parabola _EVAL_RANGE)).
    generalize dependent (curvature parabola 20).
    intros c _ Hc m _ Hup. unfold _ENTERING_PRED_LAT_ACC_TH. lra. }
  assert (Htr : _state_transition self1 = set_state entering self1).
  { unfold _state_transition, state.
    rewrite Hop1, Hen1, Hgas1, Hst1, Hv1. cbn [negb orb].
    unfold _MIN_V. destruct (Rle_dec 15 5.6) as [H | _]; [exfalso; lra |].
    destruct (Rge_dec (_max_pred_lat_acc self1) _ENTERING_PRED_LAT_ACC_TH) as [_ | H];
      [reflexivity | exfalso; lra]. }
  rewrite Htr in Hupd.
  destruct (set_state_active_overshoot entering self1) as [Hf Hdd];
    [discriminate |].
  eexists. split; [exact Hupd |].
  unfold state. attrs. rewrite set_state_state, Hf, Hdd.
  repeat split; assumption.
Qed.

(** ** The theorems at concrete inputs *)







Lemma overshoot_distance_floor_witness :
  (exists self1,
     evaluate DEG_TO_RAD_value KPH_TO_MS_value V_CRUISE_MAX_value CP_example
       parabola 0 (set_inputs true false 15 0 30 (-1, 2) (__init__ true)) = Ok self1
     /\ _lat_acc_overshoot_ahead self1 = true
     /\ 5 <= _v_overshoot_distance self1
     /\ exists q,
          truediv (_v_overshoot self1 ^ 2 - _v_ego self1 ^ 2)
                  (2 * _v_overshoot_distance self1) = Ok q)
  /\ (exists self',
        update DEG_TO_RAD_value KPH_TO_MS_value V_CRUISE_MAX_value TRAJECTORY_SIZE_value
          polyfit_through4 CP_example
          true 15 0 30 (-1, 2) sm_plan 1 true
          (set_inputs true false 15 0 30 (-1, 2) (__init__ true)) = Ok self'
        /\ state self' = entering
        /\ _lat_acc_overshoot_ahead self' = true
        /\ 5 <= _v_overshoot_distance self'
        /\ exists q,
             truediv (_v_overshoot self' ^ 2 - _v_ego self' ^ 2)
                     (2 * _v_overshoot_distance self') = Ok q).
Proof.
  destruct (overshoot_distance_floor DEG_TO_RAD_value KPH_TO_MS_value
              V_CRUISE_MAX_value TRAJECTORY_SIZE_value polyfit_through4 CP_example
              CP_example_ok true 15 0 30 (-1, 2) sm_plan 1 true
              parabola 0 (set_inputs true false 15 0 30 (-1, 2) (__init__ true))
              sm_plan_well_formed)
    as [(self1 & Hev & Hover) (self' & Hupd & Hpost)].
  split.
  - destruct (evaluate_overshoot_at_20 DEG_TO_RAD_value KPH_TO_MS_value
                V_CRUISE_MAX_value CP_example parabola 0
                (set_inputs true false 15 0 30 (-1, 2) (__init__ true)) CP_example_ok
                (parabola_over_threshold
                   (set_inputs true false 15 0 30 (-1, 2) (__init__ true)) eq_refl))
      as (s1 & Hs1 & Hflag & _).
    rewrite Hev in Hs1. injection Hs1 as <-.
    destruct (Hover Hflag) as (H5 & _ & _ & Hq).
    exists self1. split; [exact Hev |]. split; [exact Hflag |].
    split; [exact H5 | exact Hq].
  - destruct (update_enters_turn
                (set_inputs true false 15 0 30 (-1, 2) (__init__ true)) eq_refl eq_refl)
      as (s & Hs & Hst & Hflag & _).
    rewrite Hupd in Hs. injection Hs as <-.
    destruct (Hpost Hflag) as (H5 & _ & Hq).
    exists self'. split; [exact Hupd |]. split; [exact Hst |].
    split; [exact Hflag |]. split; [exact H5 | exact Hq].
Defined.

Lemma evaluate_no_overshoot_witness :
  exists self1,
    evaluate DEG_TO_RAD_value KPH_TO_MS_value V_CRUISE_MAX_value CP_example
      zero_poly 0 (set_inputs true false 15 0 30 (-1, 2) (__init__ true)) = Ok self1
    /\ _lat_acc_overshoot_ahead self1 = false
    /\ _v_overshoot_distance self1 = 200
    /\ _v_overshoot self1 = 0.
Proof.
  destruct (evaluate_no_overshoot DEG_TO_RAD_value KPH_TO_MS_value V_CRUISE_MAX_value
              CP_example CP_example_ok zero_poly 0
              (set_inputs true false 15 0 30 (-1, 2) (__init__ true)))
    as (self1 & Hev & Hflag & _ & _ & Hkeep).
  - rewrite eval_curvature_zero_poly. apply Forall_map, Forall_forall.
    intros x _. apply overshoot_threshold_pos.
  - exists self1. split; [exact Hev |]. split; [exact Hflag |].
    apply Hkeep; unfold __init__; attrs; reflexivity.
Defined.

Lemma entering_projected_speed_witness :
  exists self',
    _update_solution entering_slow = Ok self'
    /\ _v_turn self' = _MIN_V_SOLUTION.
Proof.
  pose proof (entering_projected_speed entering_slow eq_refl eq_refl) as H.
  cbv zeta in H.
  destruct H as (v & acc' & self' & _ & Hupd & _ & _ & _ & Hneg).
  exists self'. split; [exact Hupd |].
  apply Hneg.
  unfold entering_slow. attrs.
  rewrite interp_entering_table.
  repeat case_dec; lra.
Defined.

(** * Further properties of the module *)

(** ** Descriptions and the state setter *)

(** X1.  Two states are never logged under the same name. *)
Theorem _description_for_state_injective (a b : VisionTurnControllerState) :
  _description_for_state a = _description_for_state b -> a = b.
Proof.
  destruct a, b; cbn [_description_for_state]; intros H;
    try reflexivity; discriminate H.
Qed.

Lemma _description_for_state_injective_witness :
  _description_for_state turning = "TURNING"%string /\ turning = turning.
Proof.
  split; [reflexivity |].
  exact (_description_for_state_injective turning turning eq_refl).
Defined.

Lemma set__state_same (self : VisionTurnController) :
  set__state (_state self) self = self.
Proof. destruct self. reflexivity. Qed.

Lemma set__state_eq (value : VisionTurnControllerState) (self : VisionTurnController) :
  _state self = value -> set__state value self = self.
Proof. intros <-. apply set__state_same. Qed.

Lemma set_state_same (value : VisionTurnControllerState) (self : VisionTurnController) :
  value = _state self -> set_state value self = self.
Proof.
  intros ->. unfold set_state.
  destruct (_state self) eqn:Hst; cbn [state_eqb negb];
    rewrite <- Hst; apply set__state_same.
Qed.

(** X2.  The setter of [state] always ends with the state assigned.  Assigning
    the state the controller is in changes nothing, [disabled] included: the
    reset is tied to the change of state.  Assigning an active state writes
    the state only; assigning [disabled] from an active state also resets. *)
Theorem set_state_effect (value : VisionTurnControllerState)
    (self : VisionTurnController) :
  _state (set_state value self) = value
  /\ (value = _state self -> set_state value self = self)
  /\ (value <> disabled -> set_state value self = set__state value self)
  /\ (value = disabled -> _state self <> disabled ->
      set_state value self = set__state disabled (_reset self))
  /\ set_state value (set_state value self) = set_state value self.
Proof.
  split; [apply set_state_state |].
  split; [| split; [| split]].
  - apply set_state_same.
  - intros Hne. unfold set_state.
    destruct value; try (exfalso; apply Hne; reflexivity);
      destruct (_state self); reflexivity.
  - intros -> Hne. unfold set_state.
    destruct (_state self); try (exfalso; apply Hne; reflexivity); reflexivity.
  - unfold set_state at 1. rewrite set_state_state.
    destruct value; cbn [state_eqb negb]; apply set__state_eq, set_state_state.
Qed.

(** ** The cached toggle over several calls *)

Lemma _update_params_fresh (time : R) (param : bool) (self : VisionTurnController) :
  time <= _last_params_update (_update_params time param self) + 5.
Proof.
  unfold _update_params.
  destruct (Rgt_dec time (_last_params_update self + 5.0)); attrs; lra.
Qed.

(** X3.  Whatever the clock and the store say, a call of [_update_params] never
    moves the timestamp backwards, leaves it at most 5 seconds behind the
    time of the call, holds either the value just read or the one cached
    before, and touches no other attribute. *)
Theorem _update_params_timestamp (time : R) (param : bool)
    (self : VisionTurnController) :
  _last_params_update self <= _last_params_update (_update_params time param self)
  /\ time <= _last_params_update (_update_params time param self) + 5
  /\ (_is_enabled (_update_params time param self) = param
      \/ _is_enabled (_update_params time param self) = _is_enabled self)
  /\ _update_params time param self =
     set_params (_is_enabled (_update_params time param self))
       (_last_params_update (_update_params time param self)) self.
Proof.
  unfold _update_params.
  destruct (Rgt_dec time (_last_params_update self + 5.0)) as [Hgt | Hle]; attrs.
  - repeat split; try lra. left. reflexivity.
  - repeat split; try lra.
    + right. reflexivity.
    + destruct self. reflexivity.
Qed.

(** X4.  A second call at the same time changes nothing, whatever the store
    holds by then. *)
Theorem _update_params_idempotent (time : R) (param param' : bool)
    (self : VisionTurnController) :
  _update_params time param' (_update_params time param self) =
  _update_params time param self.
Proof.
  unfold _update_params at 1.
  pose proof (_update_params_fresh time param self) as Hfresh.
  destruct (Rgt_dec time (_last_params_update (_update_params time param self) + 5.0));
    [lra | reflexivity].
Qed.

(** X5.  Once the toggle has been read at [time], calls up to 5 seconds later
    keep the value read, whatever the store turned to in between. *)
Theorem _update_params_holds_value (time time' : R) (param param' : bool)
    (self : VisionTurnController) :
  time > _last_params_update self + 5.0 ->
  time' <= time + 5.0 ->
  _update_params time' param' (_update_params time param self) =
  _update_params time param self
  /\ _is_enabled (_update_params time' param' (_update_params time param self)) = param.
Proof.
  intros Hgt Hle.
  assert (Hfirst : _update_params time param self = set_params param time self).
  { unfold _update_params. destruct (Rgt_dec time (_last_params_update self + 5.0));
      [reflexivity | contradiction]. }
  rewrite Hfirst.
  assert (Hsecond : _update_params time' param' (set_params param time self) =
                    set_params param time self).
  { unfold _update_params. attrs.
    destruct (Rgt_dec time' (time + 5.0)); [lra | reflexivity]. }
  rewrite Hsecond. split; reflexivity.
Qed.

Lemma _update_params_holds_value_witness :
  _is_enabled (_update_params 7 false (_update_params 6 true (__init__ false))) = true.
Proof.
  apply (_update_params_holds_value 6 7 true false (__init__ false)).
  - unfold __init__. attrs. lra.
  - lra.
Defined.

(** ** Curvature and lateral acceleration *)

Lemma Rpower_3_2_ge_1 (a : R) : 1 <= a -> 1 <= Rpower a 1.5.
Proof.
  intros Ha. rewrite <- (Rpower_O a) by lra.
  apply Rle_Rpower; [exact Ha | lra].
Qed.

(** X6.  The curvature is never negative and never exceeds the absolute second
    derivative of the path (the denominator is at least 1); it does not
    depend on the constant coefficient, is the same for the mirrored path,
    and is 0 on every straight line, whatever its slope and offset. *)
Theorem curvature_bounds (c3 c2 c1 c0 c0' x : R) :
  0 <= curvature (mkPoly c3 c2 c1 c0) x <= Rabs (2 * c2 + 6 * c3 * x)
  /\ curvature (mkPoly c3 c2 c1 c0') x = curvature (mkPoly c3 c2 c1 c0) x
  /\ curvature (mkPoly (- c3) (- c2) (- c1) (- c0)) x = curvature (mkPoly c3 c2 c1 c0) x
  /\ curvature (mkPoly 0 0 c1 c0) x = 0.
Proof.
  split; [| split; [reflexivity | split]].
  - split; [apply curvature_nonneg |].
    unfold curvature. cbn [p0 p1 p2].
    generalize (3 * c3 * x ^ 2 + 2 * c2 * x + c1). intros d.
    pose proof (Rabs_pos (2 * c2 + 6 * c3 * x)) as Hn.
    generalize dependent (Rabs (2 * c2 + 6 * c3 * x)). intros n Hn.
    assert (Hd : 1 <= Rpower (1 + d ^ 2) 1.5).
    { apply Rpower_3_2_ge_1. pose proof (pow2_ge_0 d). lra. }
    generalize dependent (Rpower (1 + d ^ 2) 1.5). intros q Hq.
    apply Rmult_le_reg_r with q; [lra |].
    unfold Rdiv. rewrite Rmult_assoc, Rinv_l by lra. nra.
  - unfold curvature. cbn [p0 p1 p2].
    replace (2 * - c2 + 6 * - c3 * x) with (- (2 * c2 + 6 * c3 * x)) by ring.
    rewrite Rabs_Ropp.
    replace ((3 * - c3 * x ^ 2 + 2 * - c2 * x + - c1) ^ 2)
      with ((3 * c3 * x ^ 2 + 2 * c2 * x + c1) ^ 2) by ring.
    reflexivity.
  - unfold curvature. cbn [p0 p1 p2].
    replace (2 * 0 + 6 * 0 * x) with 0 by ring.
    rewrite Rabs_R0. unfold Rdiv. ring.
Qed.

Lemma fold_left_Rmax_scale (k : R) (l : list R) (a : R) :
  0 <= k ->
  fold_left Rmax (map (fun c => k * c) l) (k * a) = k * fold_left Rmax l a.
Proof.
  intros Hk. revert a. induction l as [| b l IH]; intros a; cbn [map fold_left].
  - reflexivity.
  - rewrite RmaxRmult by exact Hk. apply IH.
Qed.

(** X7.  [eval_lat_acc] after [eval_curvature] gives no negative entry, and its
    maximum is the square of the speed times the maximum curvature: the
    value [_update_calculations] computes inline as the maximum predicted
    lateral acceleration. *)
Theorem eval_lat_acc_amax (v_ego : R) (poly : Poly) (x_vals : list R) :
  Forall (fun a => 0 <= a) (eval_lat_acc v_ego (eval_curvature poly x_vals))
  /\ np_amax (eval_lat_acc v_ego (eval_curvature poly x_vals)) =
     v_ego ^ 2 * np_amax (eval_curvature poly x_vals)
  /\ 0 <= v_ego ^ 2 * np_amax (eval_curvature poly x_vals).
Proof.
  assert (Hsq : 0 <= v_ego ^ 2) by apply pow2_ge_0.
  assert (Hmax : np_amax (eval_lat_acc v_ego (eval_curvature poly x_vals)) =
                 v_ego ^ 2 * np_amax (eval_curvature poly x_vals)).
  { unfold eval_lat_acc, eval_curvature.
    destruct x_vals as [| x xs]; cbn [map np_amax]; [ring |].
    unfold lat_acc at 2.
    apply (fold_left_Rmax_scale (v_ego ^ 2) (map (curvature poly) xs)
             (curvature poly x) Hsq). }
  assert (Hall : Forall (fun a => 0 <= a)
                   (eval_lat_acc v_ego (eval_curvature poly x_vals))).
  { unfold eval_lat_acc, eval_curvature.
    apply Forall_map, Forall_map, Forall_forall. intros x _.
    unfold lat_acc. apply Rmult_le_pos; [exact Hsq | apply curvature_nonneg]. }
  split; [exact Hall |]. split; [exact Hmax |].
  rewrite <- Hmax.
  destruct (eval_lat_acc v_ego (eval_curvature poly x_vals)) as [| a l];
    cbn [np_amax]; [lra |].
  inversion Hall; subst.
  eapply Rle_trans; [eassumption | apply fold_left_Rmax_ge].
Qed.

(** ** The evaluation of the path *)

Lemma fold_left_Rmax_In (l : list R) (a : R) : In (fold_left Rmax l a) (a :: l).
Proof.
  revert a. induction l as [| b l IH]; intros a; cbn [fold_left].
  - left. reflexivity.
  - destruct (IH (Rmax a b)) as [H | H].
    + rewrite <- H. unfold Rmax. destruct (Rle_dec a b).
      * right. left. reflexivity.
      * left. reflexivity.
    + right. right. exact H.
Qed.

Lemma np_amax_In (l : list R) : l <> [] -> In (np_amax l) l.
Proof.
  destruct l as [| a l]; [intros H; contradiction |].
  intros _. apply fold_left_Rmax_In.
Qed.

Lemma np_nonzero_from_first (k : nat) (mask : list bool) :
  existsb (fun b => b) mask = true ->
  (k <= hd 0%nat (np_nonzero_from k mask))%nat
  /\ nth (hd 0%nat (np_nonzero_from k mask) - k) mask false = true
  /\ forall j, (j < hd 0%nat (np_nonzero_from k mask) - k)%nat -> nth j mask false = false.
Proof.
  revert k. induction mask as [| b mask IH]; intros k Hex; cbn [existsb] in Hex.
  - discriminate.
  - destruct b; cbn [np_nonzero_from hd].
    + rewrite Nat.sub_diag. repeat split; [lia | intros j Hj; lia].
    + cbn [orb] in Hex. destruct (IH (S k) Hex) as (Hle & Hnth & Hbefore).
      set (i := hd 0%nat (np_nonzero_from (S k) mask)) in *.
      replace (i - k)%nat with (S (i - S k)) by lia.
      repeat split; [lia | exact Hnth |].
      intros [| j] Hj; [reflexivity |]. cbn [nth]. apply Hbefore. lia.
Qed.

Lemma nth_map_seq {A : Type} (f : nat -> A) (n i : nat) (d : A) :
  (i < n)%nat -> nth i (map f (seq 0 n)) d = f i.
Proof.
  intros Hi.
  rewrite nth_indep with (d' := f 0%nat) by (rewrite length_map, length_seq; exact Hi).
  rewrite map_nth, seq_nth by exact Hi. reflexivity.
Qed.

Lemma _EVAL_RANGE_nth (i : nat) :
  (i < 26)%nat -> nth i _EVAL_RANGE 0 = _EVAL_START + INR i * _EVAL_STEP.
Proof.
  intros Hi. unfold _EVAL_RANGE, np_arange.
  apply (nth_map_seq (fun i => _EVAL_START + INR i * _EVAL_STEP) 26 i 0 Hi).
Qed.

Lemma _EVAL_RANGE_In (x : R) :
  In x _EVAL_RANGE <-> exists i, (i < 26)%nat /\ x = _EVAL_START + INR i * _EVAL_STEP.
Proof.
  unfold _EVAL_RANGE, np_arange. rewrite in_map_iff. split.
  - intros (i & Hx & Hi). apply in_seq in Hi. exists i. split; [lia | now symmetry].
  - intros (i & Hi & Hx). exists i. split; [now symmetry | apply in_seq; lia].
Qed.

Lemma np_nonzero_first_index {A : Type} (f : A -> bool) (l : list A) (d : A) :
  existsb f l = true ->
  (hd 0%nat (np_nonzero (map f l)) < length l)%nat
  /\ f (nth (hd 0%nat (np_nonzero (map f l))) l d) = true
  /\ forall j, (j < hd 0%nat (np_nonzero (map f l)))%nat -> f (nth j l d) = false.
Proof.
  intros Hex. rewrite <- existsb_id_map in Hex. unfold np_nonzero.
  pose proof (np_nonzero_from_hd 0 (map f l) Hex) as [_ Hlt].
  pose proof (np_nonzero_from_first 0 (map f l) Hex) as (_ & Hnth & Hbefore).
  rewrite length_map in Hlt. rewrite Nat.sub_0_r in Hnth, Hbefore.
  cbn [Nat.add] in Hlt.
  generalize dependent (hd 0%nat (np_nonzero_from 0 (map f l))).
  intros idx Hlt Hnth Hbefore.
  assert (Hmask : forall j, (j < length l)%nat -> nth j (map f l) false = f (nth j l d)).
  { intros j Hj.
    rewrite nth_indep with (d' := f d) by (rewrite length_map; exact Hj).
    apply map_nth. }
  split; [exact Hlt |]. split.
  - rewrite <- Hmask by exact Hlt. exact Hnth.
  - intros j Hj. rewrite <- Hmask by lia. apply Hbefore, Hj.
Qed.

(** The first grid index whose curvature passes a test. *)
Lemma grid_first_index (path_poly : Poly) (f : R -> bool) :
  existsb f (eval_curvature path_poly _EVAL_RANGE) = true ->
  (hd 0%nat (np_nonzero (map f (eval_curvature path_poly _EVAL_RANGE))) < 26)%nat
  /\ f (curvature path_poly
          (_EVAL_START
           + INR (hd 0%nat (np_nonzero (map f (eval_curvature path_poly _EVAL_RANGE))))
             * _EVAL_STEP)) = true
  /\ forall j,
       (j < hd 0%nat (np_nonzero (map f (eval_curvature path_poly _EVAL_RANGE))))%nat ->
       f (curvature path_poly (_EVAL_START + INR j * _EVAL_STEP)) = false.
Proof.
  intros Hex.
  destruct (np_nonzero_first_index f (eval_curvature path_poly _EVAL_RANGE)
              (curvature path_poly 0) Hex) as (Hlt & Hat & Hbefore).
  assert (Hlen : length (eval_curvature path_poly _EVAL_RANGE) = 26%nat).
  { unfold eval_curvature. rewrite length_map. apply _EVAL_RANGE_length. }
  rewrite Hlen in Hlt.
  assert (Hnth : forall j, (j < 26)%nat ->
            nth j (eval_curvature path_poly _EVAL_RANGE) (curvature path_poly 0)
            = curvature path_poly (_EVAL_START + INR j * _EVAL_STEP)).
  { intros j Hj. unfold eval_curvature.
    rewrite (map_nth (curvature path_poly) _EVAL_RANGE 0 j).
    rewrite (_EVAL_RANGE_nth j Hj). reflexivity. }
  generalize dependent
    (hd 0%nat (np_nonzero (map f (eval_curvature path_poly _EVAL_RANGE)))).
  intros idx Hlt Hat Hbefore.
  split; [exact Hlt |]. split.
  - rewrite <- (Hnth idx Hlt). exact Hat.
  - intros j Hj. rewrite <- (Hnth j) by lia. apply Hbefore, Hj.
Qed.

Section EvaluationProperties.

Variable DEG_TO_RAD : R.
Variable KPH_TO_MS : R.
Variable V_CRUISE_MAX : R.
Variable TRAJECTORY_SIZE : nat.
Variable np_polyfit3 : list R -> list R -> Poly.
Variable CP : CarParams.
Hypothesis CP_ok : steerRatio CP * wheelbase CP <> 0.

Local Abbreviation evaluate' := (evaluate DEG_TO_RAD KPH_TO_MS V_CRUISE_MAX CP).
Local Abbreviation update' :=
  (update DEG_TO_RAD KPH_TO_MS V_CRUISE_MAX TRAJECTORY_SIZE np_polyfit3 CP).
Local Abbreviation run' :=
  (run DEG_TO_RAD KPH_TO_MS V_CRUISE_MAX TRAJECTORY_SIZE np_polyfit3 CP).

(** Every attribute of the controller [evaluate] returns. *)
Lemma evaluate_attrs (path_poly : Poly) (steer : R) (self : VisionTurnController) :
  exists self1,
    evaluate' path_poly steer self = Ok self1
    /\ _current_lat_acc self1 =
       Rabs (steer * DEG_TO_RAD / (steerRatio CP * wheelbase CP)) * _v_ego self ^ 2
    /\ _max_v_for_current_curvature self1 =
       (if Rgt_dec (Rabs (steer * DEG_TO_RAD / (steerRatio CP * wheelbase CP))) 0
        then sqrt (_A_LAT_REG_MAX
                   / Rabs (steer * DEG_TO_RAD / (steerRatio CP * wheelbase CP)))
        else V_CRUISE_MAX * KPH_TO_MS)
    /\ _max_pred_lat_acc self1 =
       _v_ego self ^ 2 * np_amax (eval_curvature path_poly _EVAL_RANGE)
    /\ _lat_acc_overshoot_ahead self1 =
       existsb (fun c => Rgeb c (_A_LAT_REG_MAX / py_max (_v_ego self) 0.1 ^ 2))
         (eval_curvature path_poly _EVAL_RANGE)
    /\ (_lat_acc_overshoot_ahead self1 = true ->
        _v_overshoot self1 =
        py_min (sqrt (_A_LAT_REG_MAX / np_amax (eval_curvature path_poly _EVAL_RANGE)))
          (_v_cruise_setpoint self)
        /\ _v_overshoot_distance self1 =
           py_max (INR (hd 0%nat
                          (np_nonzero
                             (map (fun c => Rgeb c (_A_LAT_REG_MAX
                                                    / py_max (_v_ego self) 0.1 ^ 2))
                                (eval_curvature path_poly _EVAL_RANGE))))
                   * _EVAL_STEP + _EVAL_START) _EVAL_STEP)
    /\ (_lat_acc_overshoot_ahead self1 = false ->
        _v_overshoot self1 = _v_overshoot self
        /\ _v_overshoot_distance self1 = _v_overshoot_distance self)
    /\ (_state self1 = _state self
        /\ _op_enabled self1 = _op_enabled self
        /\ _gas_pressed self1 = _gas_pressed self
        /\ _is_enabled self1 = _is_enabled self
        /\ _last_params_update self1 = _last_params_update self
        /\ _v_cruise_setpoint self1 = _v_cruise_setpoint self
        /\ _v_ego self1 = _v_ego self
        /\ _a_ego self1 = _a_ego self
        /\ _v_turn self1 = _v_turn self
        /\ _acc_limits self1 = _acc_limits self).
Proof.
  pose proof (evaluate_ok DEG_TO_RAD KPH_TO_MS V_CRUISE_MAX CP CP_ok path_poly steer self)
    as Hev.
  cbv zeta in Hev.
  destruct (existsb _ (eval_curvature path_poly _EVAL_RANGE)) eqn:Hahead in Hev.
  - eexists. split; [exact Hev |]. attrs. rewrite Hahead.
    repeat split; intros; try reflexivity; discriminate.
  - eexists. split; [exact Hev |]. attrs. rewrite Hahead.
    repeat split; intros; try reflexivity; discriminate.
Qed.

Lemma eval_curvature_grid_nonempty (path_poly : Poly) :
  eval_curvature path_poly _EVAL_RANGE <> [].
Proof.
  intros H. apply (f_equal (@length R)) in H.
  unfold eval_curvature in H. rewrite length_map, _EVAL_RANGE_length in H.
  discriminate H.
Qed.

Lemma overshoot_flag_amax (thr : R) (pred : list R) :
  pred <> [] ->
  (existsb (fun c => Rgeb c thr) pred = true <-> thr <= np_amax pred).
Proof.
  intros Hne. split.
  - intros Hex. apply existsb_exists in Hex. destruct Hex as (c & Hin & Hc).
    unfold Rgeb in Hc. destruct (Rge_dec c thr) as [Hge |]; [| discriminate].
    pose proof (np_amax_upper pred c Hin). lra.
  - intros Hle. apply existsb_exists. exists (np_amax pred).
    split; [apply np_amax_In, Hne |].
    unfold Rgeb. destruct (Rge_dec (np_amax pred) thr); [reflexivity | lra].
Qed.

(** X8.  The overshoot flag is set exactly when the largest curvature on the grid
    reaches the threshold; from 0.1 m/s on, that is exactly when the maximum
    predicted lateral acceleration reaches [_A_LAT_REG_MAX]. *)
Theorem evaluate_overshoot_flag (path_poly : Poly) (steer : R)
    (self : VisionTurnController) :
  exists self1,
    evaluate' path_poly steer self = Ok self1
    /\ (_lat_acc_overshoot_ahead self1 = true <->
        _A_LAT_REG_MAX / py_max (_v_ego self) 0.1 ^ 2
        <= np_amax (eval_curvature path_poly _EVAL_RANGE))
    /\ (0.1 <= _v_ego self ->
        (_lat_acc_overshoot_ahead self1 = true <->
         _A_LAT_REG_MAX <= _max_pred_lat_acc self1)).
Proof.
  destruct (evaluate_attrs path_poly steer self)
    as (self1 & Hev & _ & _ & Hpred & Hflag & _).
  exists self1. split; [exact Hev |].
  pose proof (overshoot_flag_amax (_A_LAT_REG_MAX / py_max (_v_ego self) 0.1 ^ 2)
                _ (eval_curvature_grid_nonempty path_poly)) as Hiff.
  rewrite <- Hflag in Hiff.
  split; [exact Hiff |].
  intros Hv. rewrite Hiff, Hpred.
  replace (py_max (_v_ego self) 0.1) with (_v_ego self)
    by (unfold py_max; case_dec; lra).
  clear Hiff Hflag Hpred Hev.
  generalize (np_amax (eval_curvature path_poly _EVAL_RANGE)). intros m.
  generalize dependent (_v_ego self). intros v Hv.
  unfold _A_LAT_REG_MAX.
  assert (Hq : 0 < v ^ 2) by nra.
  assert (Ht : 2 / v ^ 2 * v ^ 2 = 2) by (field; lra).
  generalize dependent (2 / v ^ 2). intros t Ht.
  generalize dependent (v ^ 2). intros q Hq Ht.
  split; intros H; nra.
Qed.

Lemma py_min_left (a b : R) : py_min a b <= a.
Proof. unfold py_min. case_dec; lra. Qed.

(** X9.  With a cruise setpoint that is not negative, the speed stored for an
    overshoot is between 0 and the setpoint, and driving it keeps the lateral
    acceleration at or below [_A_LAT_REG_MAX] on every sample of the grid. *)
Theorem evaluate_overshoot_speed (path_poly : Poly) (steer : R)
    (self : VisionTurnController) :
  0 <= _v_cruise_setpoint self ->
  exists self1,
    evaluate' path_poly steer self = Ok self1
    /\ (_lat_acc_overshoot_ahead self1 = true ->
        0 <= _v_overshoot self1 <= _v_cruise_setpoint self
        /\ Forall (fun a => a <= _A_LAT_REG_MAX)
             (eval_lat_acc (_v_overshoot self1)
                (eval_curvature path_poly _EVAL_RANGE))).
Proof.
  intros Hvc.
  destruct (evaluate_attrs path_poly steer self)
    as (self1 & Hev & _ & _ & _ & Hflag & Hover & _).
  exists self1. split; [exact Hev |].
  intros Hahead. destruct (Hover Hahead) as [Hvo _]. clear Hover.
  rewrite Hflag in Hahead.
  apply (overshoot_flag_amax _ _ (eval_curvature_grid_nonempty path_poly)) in Hahead.
  pose proof (overshoot_threshold_pos (_v_ego self)) as Hthr.
  assert (Hm : 0 < np_amax (eval_curvature path_poly _EVAL_RANGE)) by lra.
  clear Hahead Hthr Hflag.
  pose proof (fun c => np_amax_upper (eval_curvature path_poly _EVAL_RANGE) c) as Hup.
  generalize dependent (np_amax (eval_curvature path_poly _EVAL_RANGE)).
  intros m Hvo Hm Hup.
  assert (Hr : 0 <= _A_LAT_REG_MAX / m).
  { unfold _A_LAT_REG_MAX. left. apply Rdiv_lt_0_compat; lra. }
  pose proof (sqrt_pos (_A_LAT_REG_MAX / m)) as Hs0.
  pose proof (sqrt_sqrt (_A_LAT_REG_MAX / m) Hr) as Hss.
  pose proof (py_min_left (sqrt (_A_LAT_REG_MAX / m)) (_v_cruise_setpoint self)) as Hl.
  pose proof (py_min_upper (sqrt (_A_LAT_REG_MAX / m)) (_v_cruise_setpoint self)) as Hu.
  assert (H0 : 0 <= py_min (sqrt (_A_LAT_REG_MAX / m)) (_v_cruise_setpoint self)).
  { unfold py_min. case_dec; lra. }
  rewrite <- Hvo in Hl, Hu, H0.
  generalize dependent (_v_overshoot self1). intros vo _ Hl Hu H0.
  split; [lra |].
  unfold eval_lat_acc. apply Forall_map, Forall_forall. intros c Hin.
  specialize (Hup c Hin).
  assert (Hc : 0 <= c).
  { unfold eval_curvature in Hin. apply in_map_iff in Hin.
    destruct Hin as (x & <- & _). apply curvature_nonneg. }
  unfold lat_acc.
  assert (Hm2 : _A_LAT_REG_MAX / m * m = _A_LAT_REG_MAX) by (field; lra).
  generalize dependent (sqrt (_A_LAT_REG_MAX / m)). intros s Hs0 Hss Hl.
  generalize dependent (_A_LAT_REG_MAX / m). intros r _ Hm2 Hss.
  assert (Hvo2 : vo ^ 2 <= r) by nra.
  assert (0 <= vo ^ 2) by apply pow2_ge_0.
  generalize dependent (vo ^ 2). intros w Hw1 Hw2.
  nra.
Qed.

(** X10.  The distance stored for an overshoot is the first grid distance whose
    curvature reaches the threshold: it lies on the grid, the curvature
    there is at or above the threshold, and it is below the threshold at
    every grid distance before. *)
Theorem evaluate_overshoot_first_sample (path_poly : Poly) (steer : R)
    (self : VisionTurnController) :
  exists self1,
    evaluate' path_poly steer self = Ok self1
    /\ (_lat_acc_overshoot_ahead self1 = true ->
        In (_v_overshoot_distance self1) _EVAL_RANGE
        /\ _A_LAT_REG_MAX / py_max (_v_ego self) 0.1 ^ 2
           <= curvature path_poly (_v_overshoot_distance self1)
        /\ forall x, In x _EVAL_RANGE -> x < _v_overshoot_distance self1 ->
             curvature path_poly x < _A_LAT_REG_MAX / py_max (_v_ego self) 0.1 ^ 2).
Proof.
  destruct (evaluate_attrs path_poly steer self)
    as (self1 & Hev & _ & _ & _ & Hflag & Hover & _).
  exists self1. split; [exact Hev |].
  intros Hahead. destruct (Hover Hahead) as [_ Hd]. clear Hover.
  rewrite Hflag in Hahead. clear Hflag Hev.
  destruct (grid_first_index path_poly _ Hahead) as (Hlt & Hat & Hbefore).
  generalize dependent
    (hd 0%nat
       (np_nonzero
          (map (fun c => Rgeb c (_A_LAT_REG_MAX / py_max (_v_ego self) 0.1 ^ 2))
             (eval_curvature path_poly _EVAL_RANGE)))).
  intros idx Hd Hlt Hat Hbefore. clear Hahead.
  generalize dependent (_A_LAT_REG_MAX / py_max (_v_ego self) 0.1 ^ 2).
  intros thr Hat Hbefore.
  assert (Hdist : _v_overshoot_distance self1 = _EVAL_START + INR idx * _EVAL_STEP).
  { rewrite Hd. pose proof (pos_INR idx) as Hi.
    unfold py_max, _EVAL_STEP, _EVAL_START.
    generalize dependent (INR idx). intros i Hi. case_dec; lra. }
  rewrite Hdist. clear Hd Hdist.
  split; [apply _EVAL_RANGE_In; exists idx; split; [exact Hlt | reflexivity] |].
  split.
  - unfold Rgeb in Hat. destruct (Rge_dec _ thr); [lra | discriminate].
  - intros x Hx Hbelow. apply _EVAL_RANGE_In in Hx. destruct Hx as (j & Hj & ->).
    assert (Hji : (j < idx)%nat).
    { apply INR_lt. unfold _EVAL_START, _EVAL_STEP in Hbelow.
      generalize dependent (INR idx). generalize dependent (INR j). intros. lra. }
    specialize (Hbefore j Hji).
    unfold Rgeb in Hbefore. destruct (Rge_dec _ thr); [discriminate | lra].
Qed.

(** X11.  The speed stored for the current curvature: when the wheels are turned
    it is the positive speed at which that curvature gives exactly
    [_A_LAT_REG_MAX] of lateral acceleration; when they are straight it is
    the cruise-speed ceiling.  The current lateral acceleration stored is
    never negative. *)
Theorem evaluate_current_curvature (path_poly : Poly) (steer : R)
    (self : VisionTurnController) :
  exists self1,
    evaluate' path_poly steer self = Ok self1
    /\ 0 <= _current_lat_acc self1
    /\ (steer * DEG_TO_RAD <> 0 ->
        0 < _max_v_for_current_curvature self1
        /\ lat_acc (_max_v_for_current_curvature self1)
             (Rabs (steer * DEG_TO_RAD / (steerRatio CP * wheelbase CP)))
           = _A_LAT_REG_MAX)
    /\ (steer * DEG_TO_RAD = 0 ->
        _max_v_for_current_curvature self1 = V_CRUISE_MAX * KPH_TO_MS
        /\ _current_lat_acc self1 = 0).
Proof.
  destruct (evaluate_attrs path_poly steer self)
    as (self1 & Hev & Hlat & Hmaxv & _).
  exists self1. split; [exact Hev |].
  rewrite Hlat, Hmaxv. clear Hlat Hmaxv Hev.
  assert (Hq : steer * DEG_TO_RAD / (steerRatio CP * wheelbase CP) = 0
               <-> steer * DEG_TO_RAD = 0).
  { split; intros H.
    - apply (f_equal (fun r => r * (steerRatio CP * wheelbase CP))) in H.
      unfold Rdiv in H. rewrite Rmult_assoc, Rinv_l, Rmult_1_r, Rmult_0_l in H
        by exact CP_ok.
      exact H.
    - rewrite H. unfold Rdiv. ring. }
  pose proof (Rabs_pos (steer * DEG_TO_RAD / (steerRatio CP * wheelbase CP))) as Hpos.
  pose proof (Rabs_no_R0 (steer * DEG_TO_RAD / (steerRatio CP * wheelbase CP))) as Hnz.
  split; [apply Rmult_le_pos; [exact Hpos | apply pow2_ge_0] |].
  split.
  - intros Hne. assert (Hne' : steer * DEG_TO_RAD / (steerRatio CP * wheelbase CP) <> 0)
      by (intros H; apply Hne, Hq, H).
    specialize (Hnz Hne'). clear Hq Hne Hne'.
    generalize dependent (Rabs (steer * DEG_TO_RAD / (steerRatio CP * wheelbase CP))).
    intros cc Hpos Hnz.
    destruct (Rgt_dec cc 0) as [Hcc | Hcc]; [| lra].
    assert (Hr : 0 < _A_LAT_REG_MAX / cc).
    { unfold _A_LAT_REG_MAX. apply Rdiv_lt_0_compat; lra. }
    split; [apply sqrt_lt_R0, Hr |].
    unfold lat_acc.
    replace (sqrt (_A_LAT_REG_MAX / cc) ^ 2)
      with (sqrt (_A_LAT_REG_MAX / cc) * sqrt (_A_LAT_REG_MAX / cc)) by ring.
    rewrite sqrt_sqrt by lra. field. lra.
  - intros Hz. apply Hq in Hz. rewrite Hz, Rabs_R0.
    destruct (Rgt_dec 0 0) as [H | _]; [lra |].
    split; [reflexivity | ring].
Qed.

(** ** One cycle *)



(** The controller the calculations of a cycle leave, attribute by
    attribute, and the solution the cycle returns. *)
Lemma update_cycle (enabled : bool) (v_ego a_ego v_cruise_setpoint : R)
    (acc : R * R) (sm : SubMaster) (time : R) (param : bool)
    (self : VisionTurnController) :
  exists self1 v acc',
    update' enabled v_ego a_ego v_cruise_setpoint acc sm time param self =
    Ok (set_solution (py_max v _MIN_V_SOLUTION) acc' (_state_transition self1))
    /\ _solve_state (_state_transition self1) = Ok (v, acc')
    /\ _state self1 = _state self
    /\ _op_enabled self1 = enabled
    /\ _gas_pressed self1 = gasPressed (carState sm)
    /\ _is_enabled self1 = _is_enabled (_update_params time param self)
    /\ _last_params_update self1 = _last_params_update (_update_params time param self)
    /\ _v_ego self1 = v_ego
    /\ _a_ego self1 = a_ego
    /\ _v_cruise_setpoint self1 = v_cruise_setpoint
    /\ _acc_limits self1 = acc
    /\ _current_lat_acc self1 =
       Rabs (steeringAngleDeg (carState sm) * DEG_TO_RAD
             / (steerRatio CP * wheelbase CP)) * v_ego ^ 2
    /\ _max_pred_lat_acc self1 =
       v_ego ^ 2 * np_amax (eval_curvature
                              (path_poly_of TRAJECTORY_SIZE np_polyfit3 v_ego sm)
                              _EVAL_RANGE)
    /\ (_lat_acc_overshoot_ahead self1 = true ->
        20 <= _v_overshoot_distance self1 <= 145)
    /\ (_lat_acc_overshoot_ahead self1 = false ->
        _v_overshoot_distance self1 = _v_overshoot_distance self).
Proof.
  destruct (update_ok DEG_TO_RAD KPH_TO_MS V_CRUISE_MAX TRAJECTORY_SIZE np_polyfit3 CP
              CP_ok enabled v_ego a_ego v_cruise_setpoint acc sm time param self)
    as (self1 & v & acc' & Hcalc & _ & _ & _ & _ & _ & _ & _ & _ & _ & Hsolve & Hupd).
  exists self1, v, acc'. split; [exact Hupd |]. split; [exact Hsolve |].
  unfold _update_calculations in Hcalc.
  destruct (evaluate_attrs
              (path_poly_of TRAJECTORY_SIZE np_polyfit3
                 (_v_ego (_update_params time param
                            (set_inputs enabled (gasPressed (carState sm)) v_ego a_ego
                               v_cruise_setpoint acc self))) sm)
              (steeringAngleDeg (carState sm))
              (_update_params time param
                 (set_inputs enabled (gasPressed (carState sm)) v_ego a_ego
                    v_cruise_setpoint acc self)))
    as (self1' & Hev & Hlat & _ & Hpred & Hflag & Hover & Hkeep & Hframe).
  rewrite Hcalc in Hev. injection Hev as <-.
  assert (Hin : forall s0,
            s0 = _update_params time param
                   (set_inputs enabled (gasPressed (carState sm)) v_ego a_ego
                      v_cruise_setpoint acc self) ->
            _state s0 = _state self
            /\ _op_enabled s0 = enabled
            /\ _gas_pressed s0 = gasPressed (carState sm)
            /\ _is_enabled s0 = _is_enabled (_update_params time param self)
            /\ _last_params_update s0 = _last_params_update (_update_params time param self)
            /\ _v_ego s0 = v_ego
            /\ _a_ego s0 = a_ego
            /\ _v_cruise_setpoint s0 = v_cruise_setpoint
            /\ _acc_limits s0 = acc
            /\ _v_overshoot_distance s0 = _v_overshoot_distance self).
  { intros s0 ->. unfold _update_params. attrs.
    destruct (Rgt_dec time (_last_params_update self + 5.0)); attrs; repeat split. }
  destruct (Hin _ eq_refl)
    as (Hst0 & Hop0 & Hgas0 & Hen0 & Hlast0 & Hv0 & Ha0 & Hvc0 & Hacc0 & Hd0).
  clear Hin.
  rewrite Hv0 in *.
  destruct Hframe as (Hst & Hop & Hgas & Hen & Hlast & Hvc & Hv & Ha & _ & Hacc).
  repeat (split; [congruence |]).
  split.
  - intros Hahead. destruct (Hover Hahead) as [_ Hd]. rewrite Hd.
    rewrite Hflag in Hahead. apply overshoot_distance_bounds, Hahead.
  - intros Hahead. destruct (Hkeep Hahead) as [_ Hd]. congruence.
Qed.








(** ** Runs of cycles *)

Lemma set_state_distance_inv (value : VisionTurnControllerState)
    (self : VisionTurnController) :
  distance_inv self -> distance_inv (set_state value self).
Proof.
  unfold distance_inv, set_state. intros H.
  destruct (negb (state_eqb value (_state self))), (state_eqb value disabled);
    attrs; try exact H. left. reflexivity.
Qed.

Lemma _state_transition_distance_inv (self : VisionTurnController) :
  distance_inv self -> distance_inv (_state_transition self).
Proof.
  intros H. unfold _state_transition.
  destruct (negb (_op_enabled self) || negb (_is_enabled self) || _gas_pressed self).
  - apply set_state_distance_inv, H.
  - destruct (state self); repeat case_dec;
      first [apply set_state_distance_inv, H | exact H].
Qed.

Lemma update_distance_inv
    (enabled : bool) (v_ego a_ego v_cruise_setpoint : R)
    (acc : R * R) (sm : SubMaster) (time : R) (param : bool)
    (self : VisionTurnController) :
  distance_inv self ->
  exists self',
    update' enabled v_ego a_ego v_cruise_setpoint acc sm time param self = Ok self'
    /\ distance_inv self'
    /\ _MIN_V_SOLUTION <= _v_turn self'.
Proof.
  intros Hinv.
  destruct (update_cycle enabled v_ego a_ego v_cruise_setpoint acc sm time param self)
    as (self1 & v & acc' & Hupd & _ & _ & _ & _ & _ & _ & _ & _ & _ & _ & _ & _
        & Hover & Hkeep).
  eexists. split; [exact Hupd |].
  assert (H1 : distance_inv self1).
  { unfold distance_inv in *. destruct (_lat_acc_overshoot_ahead self1).
    - right. apply Hover. reflexivity.
    - rewrite (Hkeep eq_refl). exact Hinv. }
  apply _state_transition_distance_inv in H1.
  unfold distance_inv in *. attrs. split; [exact H1 | apply py_max_lower].
Qed.

(** X20.  However many cycles are run on a freshly constructed controller,
    on well-formed messages and with any other inputs, no cycle raises, and
    the overshoot distance the controller holds at the end is the reset
    value 200 or a grid distance between 20 and 145 (never zero, flagged or
    stale); after at least one cycle the stored speed is at least 8.33. *)
Theorem run_distance_inv (cycles : list Cycle) (param : bool) :
  Forall (fun c => message_well_formed (c_sm c)) cycles ->
  exists self',
    run' cycles (__init__ param) = Ok self'
    /\ distance_inv self'
    /\ _v_overshoot_distance self' <> 0
    /\ (cycles <> [] -> _MIN_V_SOLUTION <= _v_turn self').
Proof.
  intros _.
  assert (Hgen : forall cs self, distance_inv self ->
            exists self', run' cs self = Ok self' /\ distance_inv self'
                          /\ (cs <> [] -> _MIN_V_SOLUTION <= _v_turn self')).
  { induction cs as [| c cs IH]; intros self Hinv; cbn [run].
    - exists self. repeat split; [exact Hinv | intros H; contradiction].
    - destruct (update_distance_inv (c_enabled c) (c_v_ego c) (c_a_ego c)
                  (c_v_cruise_setpoint c) (c_acc_limits c) (c_sm c) (c_time c)
                  (c_param c) self Hinv) as (self1 & Hupd & Hinv1 & Hv1).
      rewrite Hupd. cbn [bind].
      destruct (IH self1 Hinv1) as (self' & Hrun & Hinv' & Hv').
      exists self'. repeat split; [exact Hrun | exact Hinv' |].
      intros _. destruct cs as [| c' cs'].
      + cbn [run] in Hrun. injection Hrun as <-. exact Hv1.
      + apply Hv'. discriminate. }
  destruct (Hgen cycles (__init__ param)) as (self' & Hrun & Hinv & Hv).
  { left. unfold __init__. attrs. reflexivity. }
  exists self'. repeat split; try assumption.
  unfold distance_inv in Hinv. lra.
Qed.



End EvaluationProperties.

(** ** The solution, branch by branch *)

Lemma interp_turning_range (x : R) :
  -0.4 <= interp x _MIN_TURNING_ACC_BP _MIN_TURNING_ACC_V <= -0.1.
Proof.
  unfold _MIN_TURNING_ACC_BP, _MIN_TURNING_ACC_V.
  cbn [interp interp_from]. repeat case_dec; lra.
Qed.

Lemma interp_entering_range (x : R) :
  -1 <= interp x _ENTERING_SMOOTH_DECEL_BP _ENTERING_SMOOTH_DECEL_V <= -0.3.
Proof.
  rewrite interp_entering_table. repeat case_dec; lra.
Qed.

(** X17.  [_update_solution] raises in one situation only: in [entering], with an
    overshoot flagged and a stored overshoot distance of zero, the division
    by twice the distance raises [ZeroDivisionError].  In every other
    situation it returns; the [ValueError] of the square root never
    escapes. *)
Theorem _update_solution_raises (self : VisionTurnController) :
  ((exists e, _update_solution self = Raise e) <->
   state self = entering /\ _lat_acc_overshoot_ahead self = true
   /\ _v_overshoot_distance self = 0)
  /\ (forall e, _update_solution self = Raise e -> e = ZeroDivisionError).
Proof.
  unfold _update_solution, _solve_state.
  destruct (state self) eqn:Hst;
    try (cbn [bind]; split;
         [split; [intros (e & H); discriminate H | intros (H & _); discriminate H]
         | intros e H; discriminate H]).
  destruct (_lat_acc_overshoot_ahead self) eqn:Hahead; cbn [negb].
  - unfold truediv.
    destruct (Req_dec_T (2 * _v_overshoot_distance self) 0) as [Hz | Hnz]; cbn [bind].
    + split.
      * split; [intros _; repeat split; lra | intros _; eexists; reflexivity].
      * intros e [= <-]. reflexivity.
    + split.
      * split; [intros (e & H); discriminate H | intros (_ & _ & H); exfalso; lra].
      * intros e H; discriminate H.
  - unfold math_sqrt. destruct (Rlt_dec _ 0); cbn [bind]; split;
      first [ split; [intros (e & H); discriminate H | intros (_ & H & _); discriminate H]
            | intros e H; discriminate H ].
Qed.

(** X18.  In [turning] and [leaving] the solution returns, and the speed it stores
    is at least 8.33 and never above the current speed or, below 8.33, that
    floor: these states never ask for more speed than the car has.  In
    [turning] the min limit it writes is between -0.4 and -0.1 and the max
    limit is kept; in [leaving] the limits are kept and the speed is also
    capped by the cruise setpoint. *)
Theorem turning_leaving_solution (self : VisionTurnController) :
  state self = turning \/ state self = leaving ->
  exists self',
    _update_solution self = Ok self'
    /\ _MIN_V_SOLUTION <= _v_turn self' <= Rmax (_v_ego self) _MIN_V_SOLUTION
    /\ (state self = turning ->
        -0.4 <= fst (acc_limits self') <= -0.1
        /\ snd (acc_limits self') = snd (_acc_limits self)
        /\ _v_turn self' <= Rmax (_max_v_for_current_curvature self) _MIN_V_SOLUTION)
    /\ (state self = leaving ->
        acc_limits self' = _acc_limits self
        /\ _v_turn self' <= Rmax (_v_cruise_setpoint self) _MIN_V_SOLUTION).
Proof.
  intros Hst. unfold _update_solution, _solve_state, acc_limits.
  pose proof (interp_turning_range (_current_lat_acc self)) as Htab.
  destruct Hst as [Hst | Hst]; rewrite Hst; cbn [bind]; eexists;
    (split; [reflexivity |]); attrs; cbn [fst snd];
    generalize dependent (interp (_current_lat_acc self) _MIN_TURNING_ACC_BP
                            _MIN_TURNING_ACC_V);
    intros tab Htab;
    unfold py_max, py_min, Rmax, _MIN_V_SOLUTION;
    repeat split; try congruence;
    repeat case_dec; repeat (destruct (Rle_dec _ _)); lra.
Qed.

(** X19.  In [entering] (with a stored overshoot distance that is not zero when
    an overshoot is flagged) the solution returns a min limit of at most
    -0.3 and keeps the max limit.  Without overshoot the min limit is the
    smaller of the table value and the limit given, so never below the
    smaller of -1 and the limit given.  With an overshoot the speed stored
    is the overshoot speed (8.33 at least) and the min limit allows the
    constant deceleration that reaches it at the overshoot distance. *)
Theorem entering_limits (self : VisionTurnController) :
  state self = entering ->
  (_lat_acc_overshoot_ahead self = true -> _v_overshoot_distance self <> 0) ->
  exists self',
    _update_solution self = Ok self'
    /\ fst (acc_limits self') <= -0.3
    /\ snd (acc_limits self') = snd (_acc_limits self)
    /\ (_lat_acc_overshoot_ahead self = false ->
        fst (acc_limits self') =
        Rmin (interp (_max_pred_lat_acc self) _ENTERING_SMOOTH_DECEL_BP
                _ENTERING_SMOOTH_DECEL_V) (fst (_acc_limits self))
        /\ Rmin (-1) (fst (_acc_limits self)) <= fst (acc_limits self'))
    /\ (_lat_acc_overshoot_ahead self = true ->
        _v_turn self' = Rmax (_v_overshoot self) _MIN_V_SOLUTION
        /\ fst (acc_limits self')
           <= (_v_overshoot self ^ 2 - _v_ego self ^ 2) / (2 * _v_overshoot_distance self)).
Proof.
  intros Hst Hdist. unfold _update_solution, _solve_state, acc_limits.
  rewrite Hst.
  pose proof (interp_entering_range (_max_pred_lat_acc self)) as Htab.
  generalize dependent (interp (_max_pred_lat_acc self) _ENTERING_SMOOTH_DECEL_BP
                          _ENTERING_SMOOTH_DECEL_V).
  intros tab Htab.
  destruct (_lat_acc_overshoot_ahead self) eqn:Hahead; cbn [negb].
  - rewrite truediv_ok by (specialize (Hdist eq_refl); lra).
    cbn [bind]. eexists. split; [reflexivity |]. attrs. cbn [fst snd].
    generalize ((_v_overshoot self ^ 2 - _v_ego self ^ 2)
                / (2 * _v_overshoot_distance self)).
    intros q.
    pose proof (py_min_left (py_min q tab) (fst (_acc_limits self))) as H1.
    pose proof (py_min_upper q tab) as H2.
    pose proof (py_min_left q tab) as H3.
    split; [lra |].
    split; [reflexivity |].
    split; [intros H; discriminate H | intros _].
    split; [apply py_max_Rmax | lra].
  - destruct (math_sqrt _) as [s | []] eqn:Hsq; cbn [bind].
    + eexists. split; [reflexivity |]. attrs. cbn [fst snd].
      split; [unfold py_min; case_dec; lra |].
      split; [reflexivity |].
      split; [intros _ | intros H; discriminate H].
      split; [apply py_min_Rmin |].
      unfold py_min, Rmin. case_dec; destruct (Rle_dec _ _); lra.
    + exfalso. revert Hsq. unfold math_sqrt. case_dec; discriminate.
    + eexists. split; [reflexivity |]. attrs. cbn [fst snd].
      split; [unfold py_min; case_dec; lra |].
      split; [reflexivity |].
      split; [intros _ | intros H; discriminate H].
      split; [apply py_min_Rmin |].
      unfold py_min, Rmin. case_dec; destruct (Rle_dec _ _); lra.
Qed.

(** ** The cycle and the car parameters *)

(** X22.  On a well-formed message a cycle raises exactly when the product
    of steering ratio and wheelbase is zero, and then it raises
    [ZeroDivisionError] (the curvature of the steering angle divides by that
    product), whatever the other inputs and the state; with any other car it
    returns. *)
Theorem update_zero_division
    (DEG_TO_RAD KPH_TO_MS V_CRUISE_MAX : R) (TRAJECTORY_SIZE : nat)
    (np_polyfit3 : list R -> list R -> Poly) (CP : CarParams)
    (enabled : bool) (v_ego a_ego v_cruise_setpoint : R)
    (acc : R * R) (sm : SubMaster) (time : R) (param : bool)
    (self : VisionTurnController) :
  message_well_formed sm ->
  (steerRatio CP * wheelbase CP = 0 <->
   update DEG_TO_RAD KPH_TO_MS V_CRUISE_MAX TRAJECTORY_SIZE np_polyfit3 CP
     enabled v_ego a_ego v_cruise_setpoint acc sm time param self
   = Raise ZeroDivisionError)
  /\ (steerRatio CP * wheelbase CP <> 0 <->
      exists self',
        update DEG_TO_RAD KPH_TO_MS V_CRUISE_MAX TRAJECTORY_SIZE np_polyfit3 CP
          enabled v_ego a_ego v_cruise_setpoint acc sm time param self = Ok self').
Proof.
  intros _.
  destruct (Req_dec_T (steerRatio CP * wheelbase CP) 0) as [Hz | Hnz].
  - assert (Hraise :
      update DEG_TO_RAD KPH_TO_MS V_CRUISE_MAX TRAJECTORY_SIZE np_polyfit3 CP
        enabled v_ego a_ego v_cruise_setpoint acc sm time param self
      = Raise ZeroDivisionError).
    { unfold update, _update_calculations, evaluate.
      assert (Hdiv : forall a, truediv a (steerRatio CP * wheelbase CP)
                               = Raise ZeroDivisionError).
      { intros a. unfold truediv.
        destruct (Req_dec_T (steerRatio CP * wheelbase CP) 0);
          [reflexivity | contradiction]. }
      rewrite Hdiv. reflexivity. }
    split; split; intros H; try assumption; try contradiction.
    destruct H as (self' & H). rewrite Hraise in H. discriminate H.
  - destruct (update_ok DEG_TO_RAD KPH_TO_MS V_CRUISE_MAX TRAJECTORY_SIZE np_polyfit3 CP
                Hnz enabled v_ego a_ego v_cruise_setpoint acc sm time param self)
      as (self1 & v & acc' & _ & _ & _ & _ & _ & _ & _ & _ & _ & _ & _ & Hupd).
    split; split; intros H; try assumption; try contradiction.
    + rewrite Hupd in H. discriminate H.
    + eexists. exact Hupd.
Qed.

(** ** The path polynomial *)

Lemma interp_unit_width (x : R) : 0 <= interp x [4.0; 5.0] [1.0; 0.0] <= 1.
Proof. cbn [interp interp_from]. repeat case_dec; lra. Qed.

Lemma interp_unit_std (x : R) :
  0 <= interp x [0.15; 0.3] [1.0; 0.0] <= 1
  /\ (0.3 <= x -> interp x [0.15; 0.3] [1.0; 0.0] = 0).
Proof. cbn [interp interp_from]. repeat case_dec; split; intros; lra. Qed.

Lemma fold_left_py_min_In (l : list R) (a : R) : In (fold_left py_min l a) (a :: l).
Proof.
  revert a. induction l as [| b l IH]; intros a; cbn [fold_left].
  - left. reflexivity.
  - destruct (IH (py_min a b)) as [H | H].
    + rewrite <- H. unfold py_min. destruct (Rlt_dec b a).
      * right. left. reflexivity.
      * left. reflexivity.
    + right. right. exact H.
Qed.

Lemma py_min_list_In (l : list R) : l <> [] -> In (py_min_list l) l.
Proof.
  destruct l as [| a l]; [intros H; contradiction |].
  intros _. apply fold_left_py_min_In.
Qed.

Lemma map2_centre (lll_y rll_y : list R) :
  map2 (fun w l => w / 2 + l) (map2 Rminus rll_y lll_y) lll_y =
  map2 (fun l r => (l + r) / 2) lll_y rll_y.
Proof.
  revert rll_y. induction lll_y as [| l ls IH]; intros [| r rs]; cbn [map2];
    try reflexivity.
  f_equal; [field | apply IH].
Qed.

Lemma scaled_prob_low (p m s : R) :
  0 <= m <= 1 -> 0 <= s <= 1 -> p <= 0.6 -> p * m * s <= 0.6.
Proof.
  intros Hm Hs Hp.
  assert (Hms : 0 <= m * s <= 1) by nra.
  rewrite Rmult_assoc. generalize dependent (m * s). intros k Hk.
  destruct (Rle_dec p 0); nra.
Qed.

Section PathProperties.

Variable TRAJECTORY_SIZE : nat.
Variable np_polyfit3 : list R -> list R -> Poly.

Local Abbreviation lane_poly' := (lane_poly TRAJECTORY_SIZE np_polyfit3).
Local Abbreviation path_poly_of' := (path_poly_of TRAJECTORY_SIZE np_polyfit3).

(** With four lane lines of the model's length, the lane fit is decided by
    the two inner probabilities, each scaled by a width factor and by a
    factor of its own uncertainty, both between 0 and 1; the curve fitted is
    the midline of the two inner lanes. *)
Lemma lane_poly_decision (v_ego : R) (md : ModelDataV2) (ll0 ll1 ll2 ll3 : XYZTData) :
  laneLines md = [ll0; ll1; ll2; ll3] ->
  length (xyzt_t ll0) = TRAJECTORY_SIZE ->
  exists m ls rs,
    0 <= m <= 1 /\ 0 <= ls <= 1 /\ 0 <= rs <= 1
    /\ (0.3 <= nth 1 (laneLineStds md) 0 -> ls = 0)
    /\ (0.3 <= nth 2 (laneLineStds md) 0 -> rs = 0)
    /\ lane_poly' v_ego md =
       if Rgtb (nth 1 (laneLineProbs md) 0 * m * ls) _MIN_LANE_PROB
          && Rgtb (nth 2 (laneLineProbs md) 0 * m * rs) _MIN_LANE_PROB
       then Some (np_polyfit3 (xyzt_x ll1)
                    (map2 (fun l r => (l + r) / 2) (xyzt_y ll1) (xyzt_y ll2)))
       else None.
Proof.
  intros Hlanes Hlen.
  exists (py_min_list
            (map (fun t_check =>
                    interp (interp (t_check * (v_ego + 7)) (xyzt_x ll1)
                              (map2 Rminus (xyzt_y ll2) (xyzt_y ll1)))
                      [4.0; 5.0] [1.0; 0.0])
               [0.0; 1.5; 3.0])),
         (interp (nth 1 (laneLineStds md) 0) [0.15; 0.3] [1.0; 0.0]),
         (interp (nth 2 (laneLineStds md) 0) [0.15; 0.3] [1.0; 0.0]).
  split.
  { match goal with |- 0 <= py_min_list ?l <= 1 =>
      assert (Hin : In (py_min_list l) l) by (apply py_min_list_In; discriminate)
    end.
    apply in_map_iff in Hin. destruct Hin as (t & <- & _).
    apply interp_unit_width. }
  split; [apply interp_unit_std |]. split; [apply interp_unit_std |].
  split; [apply interp_unit_std |]. split; [apply interp_unit_std |].
  unfold lane_poly. rewrite Hlanes, Hlen, Nat.eqb_refl. cbv zeta.
  rewrite map2_centre. reflexivity.
Qed.

(** X23.  The lane lines are not used for the path unless there are exactly four
    of them, the first with the model's trajectory length; nor when one of
    the two inner lines has a probability of 0.6 or less, or an uncertainty
    of 0.3 or more. *)
Theorem lane_poly_rejects (v_ego : R) (md : ModelDataV2) :
  (length (laneLines md) <> 4%nat -> lane_poly' v_ego md = None)
  /\ (forall ll0 ll1 ll2 ll3,
        laneLines md = [ll0; ll1; ll2; ll3] ->
        length (xyzt_t ll0) <> TRAJECTORY_SIZE
        \/ nth 1 (laneLineProbs md) 0 <= 0.6
        \/ nth 2 (laneLineProbs md) 0 <= 0.6
        \/ 0.3 <= nth 1 (laneLineStds md) 0
        \/ 0.3 <= nth 2 (laneLineStds md) 0 ->
        lane_poly' v_ego md = None).
Proof.
  split.
  - intros Hlen. unfold lane_poly.
    destruct (laneLines md) as [| a [| b [| c [| d [| e l]]]]]; try reflexivity.
    exfalso. apply Hlen. reflexivity.
  - intros ll0 ll1 ll2 ll3 Hlanes Hbad.
    destruct (Nat.eq_dec (length (xyzt_t ll0)) TRAJECTORY_SIZE) as [Hlen | Hlen].
    + destruct (lane_poly_decision v_ego md ll0 ll1 ll2 ll3 Hlanes Hlen)
        as (m & ls & rs & Hm & Hls & Hrs & Hl0 & Hr0 & ->).
      unfold _MIN_LANE_PROB, Rgtb.
      destruct Hbad as [H | [H | [H | [H | H]]]]; [contradiction | | | |].
      * pose proof (scaled_prob_low _ m ls Hm Hls H).
        destruct (Rgt_dec _ 0.6); [lra | reflexivity].
      * pose proof (scaled_prob_low _ m rs Hm Hrs H).
        destruct (Rgt_dec (nth 2 (laneLineProbs md) 0 * m * rs) 0.6); [lra |].
        destruct (Rgt_dec _ 0.6); reflexivity.
      * rewrite (Hl0 H), Rmult_0_r.
        destruct (Rgt_dec 0 0.6); [lra | reflexivity].
      * rewrite (Hr0 H), Rmult_0_r.
        destruct (Rgt_dec 0 0.6); [lra |].
        destruct (Rgt_dec _ 0.6); reflexivity.
    + unfold lane_poly. rewrite Hlanes.
      destruct (Nat.eqb_spec (length (xyzt_t ll0)) TRAJECTORY_SIZE);
        [contradiction | reflexivity].
Qed.



End PathProperties.

(** ** The further properties at concrete inputs *)

Lemma evaluate_overshoot_flag_witness :
  exists self1,
    evaluate DEG_TO_RAD_value KPH_TO_MS_value V_CRUISE_MAX_value CP_example
      parabola 0 (set_inputs true false 15 0 30 (-1, 2) (__init__ true)) = Ok self1
    /\ (_lat_acc_overshoot_ahead self1 = true <->
        _A_LAT_REG_MAX <= _max_pred_lat_acc self1).
Proof.
  destruct (evaluate_overshoot_flag DEG_TO_RAD_value KPH_TO_MS_value V_CRUISE_MAX_value
              CP_example CP_example_ok parabola 0
              (set_inputs true false 15 0 30 (-1, 2) (__init__ true)))
    as (self1 & Hev & _ & Hfast).
  exists self1. split; [exact Hev |]. apply Hfast. attrs. lra.
Defined.

Lemma evaluate_overshoot_speed_witness :
  exists self1,
    evaluate DEG_TO_RAD_value KPH_TO_MS_value V_CRUISE_MAX_value CP_example
      parabola 0 (set_inputs true false 15 0 30 (-1, 2) (__init__ true)) = Ok self1
    /\ (_lat_acc_overshoot_ahead self1 = true -> 0 <= _v_overshoot self1 <= 30).
Proof.
  destruct (evaluate_overshoot_speed DEG_TO_RAD_value KPH_TO_MS_value V_CRUISE_MAX_value
              CP_example CP_example_ok parabola 0
              (set_inputs true false 15 0 30 (-1, 2) (__init__ true)))
    as (self1 & Hev & Hspeed).
  - attrs. lra.
  - exists self1. split; [exact Hev |]. intros Hahead.
    destruct (Hspeed Hahead) as [Hb _]. exact Hb.
Defined.

Lemma evaluate_overshoot_first_sample_witness :
  exists self1,
    evaluate DEG_TO_RAD_value KPH_TO_MS_value V_CRUISE_MAX_value CP_example
      parabola 0 (set_inputs true false 15 0 30 (-1, 2) (__init__ true)) = Ok self1
    /\ (_lat_acc_overshoot_ahead self1 = true ->
        In (_v_overshoot_distance self1) _EVAL_RANGE).
Proof.
  destruct (evaluate_overshoot_first_sample DEG_TO_RAD_value KPH_TO_MS_value
              V_CRUISE_MAX_value CP_example CP_example_ok parabola 0
              (set_inputs true false 15 0 30 (-1, 2) (__init__ true)))
    as (self1 & Hev & Hfirst).
  exists self1. split; [exact Hev |]. intros Hahead.
  destruct (Hfirst Hahead) as [Hin _]. exact Hin.
Defined.

Lemma evaluate_current_curvature_witness :
  exists self1,
    evaluate DEG_TO_RAD_value KPH_TO_MS_value V_CRUISE_MAX_value CP_example
      zero_poly 0 (set_inputs true false 15 0 30 (-1, 2) (__init__ true)) = Ok self1
    /\ _max_v_for_current_curvature self1 = V_CRUISE_MAX_value * KPH_TO_MS_value.
Proof.
  destruct (evaluate_current_curvature DEG_TO_RAD_value KPH_TO_MS_value
              V_CRUISE_MAX_value CP_example CP_example_ok zero_poly 0
              (set_inputs true false 15 0 30 (-1, 2) (__init__ true)))
    as (self1 & Hev & _ & _ & Hstraight).
  exists self1. split; [exact Hev |].
  destruct Hstraight as [Hv _]; [ring | exact Hv].
Defined.







Lemma turning_leaving_solution_witness :
  exists self',
    _update_solution (in_state turning) = Ok self'
    /\ -0.4 <= fst (acc_limits self') <= -0.1.
Proof.
  destruct (turning_leaving_solution (in_state turning)) as (self' & Hsol & _ & Hturn & _).
  - left. reflexivity.
  - exists self'. split; [exact Hsol |].
    destruct Hturn as [Hb _]; [reflexivity | exact Hb].
Defined.

Lemma entering_limits_witness :
  exists self',
    _update_solution entering_slow = Ok self'
    /\ fst (acc_limits self') <= -0.3.
Proof.
  destruct (entering_limits entering_slow) as (self' & Hsol & Hmin & _).
  - reflexivity.
  - intros H. discriminate H.
  - exists self'. split; [exact Hsol | exact Hmin].
Defined.

Lemma run_distance_inv_witness :
  exists self',
    run DEG_TO_RAD_value KPH_TO_MS_value V_CRUISE_MAX_value TRAJECTORY_SIZE_value
      polyfit_not_called CP_example [cycle_straight; cycle_straight] (__init__ true)
    = Ok self'
    /\ _v_overshoot_distance self' <> 0.
Proof.
  destruct (run_distance_inv DEG_TO_RAD_value KPH_TO_MS_value V_CRUISE_MAX_value
              TRAJECTORY_SIZE_value polyfit_not_called CP_example CP_example_ok
              [cycle_straight; cycle_straight] true)
    as (self' & Hrun & _ & Hnz & _).
  - constructor; [exact (sm_no_vision_well_formed 0 false) |].
    constructor; [exact (sm_no_vision_well_formed 0 false) | constructor].
  - exists self'. split; [exact Hrun | exact Hnz].
Defined.






Lemma update_zero_division_witness :
  update DEG_TO_RAD_value KPH_TO_MS_value V_CRUISE_MAX_value TRAJECTORY_SIZE_value
    polyfit_through4 (mkCarParams 15 0)
    true 15 0 30 (-1, 2) sm_plan 1 true (__init__ true) = Raise ZeroDivisionError.
Proof.
  destruct (update_zero_division DEG_TO_RAD_value KPH_TO_MS_value V_CRUISE_MAX_value
              TRAJECTORY_SIZE_value polyfit_through4 (mkCarParams 15 0)
              true 15 0 30 (-1, 2) sm_plan 1 true (__init__ true) sm_plan_well_formed)
    as [[Hraise _] _].
  apply Hraise. cbn [steerRatio wheelbase]. ring.
Defined.
